(** * microbundle: configuration resolution and naming engine

    A shallow embedding of [src/index.js]: entry resolution, the output path
    planner, the external classifier, the shebang cache, the name cache
    loader and the build orchestrator, followed by the properties of the
    specification stated over these definitions.

    JavaScript strings are [string]; objects used as dictionaries are
    [gmap string _]; arrays are lists.  The bundling engine, the minifier
    and the file system are outside the program: what the code asks of
    them is taken as data (a record of file-system answers, a parsing
    function), never assumed to behave in a particular way. *)

From Stdlib Require Import ZArith Ascii String List Bool Lia DecimalString.
From stdpp Require Import gmap strings list fin_maps.

Local Open Scope string_scope.
Set Warnings "-register-all".

(* ===================================================================== *)
(** * Definitions                                                         *)
(* ===================================================================== *)

(** ** JavaScript strings *)

Module JsString.

(** Truthiness of a string value: every string but the empty one. *)
Definition truthy (s : string) : bool := negb (String.eqb s "").

(** Truthiness of a field that may be absent ([undefined]). *)
Definition truthy_opt (o : option string) : bool :=
  match o with
  | Some s => truthy s
  | None => false
  end.

(** [a || b] on possibly absent strings, with a string on the right. *)
Definition or_else (o : option string) (d : string) : string :=
  match o with
  | Some s => if truthy s then s else d
  | None => d
  end.

(** [a > b] on strings: lexicographic on code units. *)
Definition gt (a b : string) : bool := String.ltb b a.

Fixpoint startsWith (p s : string) : bool :=
  match p, s with
  | EmptyString, _ => true
  | String a p', String b s' => Ascii.eqb a b && startsWith p' s'
  | String _ _, EmptyString => false
  end.

(** [s.includes(p)]. *)
Fixpoint includes (p s : string) : bool :=
  startsWith p s ||
  match s with
  | EmptyString => false
  | String _ s' => includes p s'
  end.

Fixpoint takeWhile (f : ascii -> bool) (s : string) : string :=
  match s with
  | EmptyString => EmptyString
  | String c s' => if f c then String c (takeWhile f s') else EmptyString
  end.

Fixpoint dropWhile (f : ascii -> bool) (s : string) : string :=
  match s with
  | EmptyString => EmptyString
  | String c s' => if f c then dropWhile f s' else s
  end.

(** [f] holds of every character of [s]. *)
Fixpoint all (f : ascii -> bool) (s : string) : bool :=
  match s with
  | EmptyString => true
  | String c s' => f c && all f s'
  end.

(** A file-name suffix such as [.esm.js]: no slash in it, and too long
    to turn a segment into [.] or [..]. *)
Definition plain_suffix (s : string) : Prop :=
  all (fun c => negb (Ascii.eqb c "/")) s = true /\ 3 <= String.length s.

Definition rev (s : string) : string :=
  string_of_list_ascii (List.rev (list_ascii_of_string s)).

Fixpoint join (sep : string) (l : list string) : string :=
  match l with
  | [] => ""
  | [x] => x
  | x :: r => x +:+ sep +:+ join sep r
  end.

Definition is_slash (c : ascii) : bool := Ascii.eqb c "/".
Definition not_slash (c : ascii) : bool := negb (is_slash c).

(** [s.split(sep)] for a separator of one character. *)
Fixpoint split (sep : ascii) (s : string) : list string :=
  match s with
  | EmptyString => [""]
  | String c t =>
      if Ascii.eqb c sep then "" :: split sep t
      else match split sep t with
           | x :: r => String c x :: r
           | [] => [String c ""]
           end
  end.

End JsString.

(** ** Regular expressions

    The patterns of the program are written as terms of [regex]; [rmatch]
    is a backtracking matcher in continuation-passing style.  A pattern
    is tried at one position; [test] and [test_anchored] add the search
    over start positions that [RegExp.prototype.test] performs. *)

Module Regex.

Inductive regex : Type :=
| Eps : regex
| Chr : ascii -> regex
| OneOf : list ascii -> regex          (* [abc] *)
| NoneOf : list ascii -> regex         (* [^abc] *)
| Seq : regex -> regex -> regex
| Alt : regex -> regex -> regex
| Opt : regex -> regex                 (* r? *)
| Star : regex -> regex                (* r* *)
| Eos : regex.                         (* $ *)

Definition mem (c : ascii) (l : list ascii) : bool :=
  existsb (Ascii.eqb c) l.

Fixpoint rmatch (r : regex) (s : string) (k : string -> bool) {struct r} : bool :=
  match r with
  | Eps => k s
  | Chr c =>
      match s with
      | String x t => Ascii.eqb x c && k t
      | EmptyString => false
      end
  | OneOf l =>
      match s with
      | String x t => mem x l && k t
      | EmptyString => false
      end
  | NoneOf l =>
      match s with
      | String x t => negb (mem x l) && k t
      | EmptyString => false
      end
  | Seq a b => rmatch a s (fun s' => rmatch b s' k)
  | Alt a b => rmatch a s k || rmatch b s k
  | Opt a => rmatch a s k || k s
  | Star a =>
      (fix loop (n : nat) (s : string) : bool :=
         match n with
         | O => k s
         | S n' =>
             rmatch a s (fun s' =>
               (String.length s' <? String.length s)%nat && loop n' s')
             || k s
         end) (String.length s) s
  | Eos =>
      match s with
      | EmptyString => k s
      | String _ _ => false
      end
  end.

(** The literal pattern: the regular expression that the escaped text
    of [s] (as produced by [escapeStringRegexp]) denotes. *)
Fixpoint lit (s : string) : regex :=
  match s with
  | EmptyString => Eps
  | String c t => Seq (Chr c) (lit t)
  end.

(** [a|b|...]; the empty alternation [()] matches the empty string. *)
Fixpoint alternation (l : list regex) : regex :=
  match l with
  | [] => Eps
  | [r] => r
  | r :: rest => Alt r (alternation rest)
  end.

(** [/^r/.test(s)]. *)
Definition test_anchored (r : regex) (s : string) : bool :=
  rmatch r s (fun _ => true).

(** [/r/.test(s)]: some start position matches. *)
Fixpoint test (r : regex) (s : string) : bool :=
  test_anchored r s ||
  match s with
  | EmptyString => false
  | String _ t => test r t
  end.

(** [s.replace(/r$/, '')] for a pattern that ends in [$]: the match is
    the leftmost start position from which [r] reaches the end of the
    string; the text before it is kept. *)
Fixpoint strip_suffix (r : regex) (s : string) : string :=
  if test_anchored r s then ""
  else match s with
       | EmptyString => ""
       | String c t => String c (strip_suffix r t)
       end.

End Regex.

(** ** Paths

    Node's POSIX [path] module, as far as the program uses it:
    [resolve], [dirname] and [basename].  [process.cwd()] is the
    parameter [pcwd]. *)

Module Path.
Import JsString.

(** The text between the slashes of a path. *)
Definition segments (s : string) : list string := split "/" s.

(** One step of [normalizeString]: the stack holds the segments kept so
    far, last one first. *)
Definition norm_step (allowAboveRoot : bool) (stack : list string) (seg : string)
  : list string :=
  if String.eqb seg "" || String.eqb seg "." then stack
  else if String.eqb seg ".." then
    match stack with
    | top :: rest =>
        if String.eqb top ".."
        then (if allowAboveRoot then ".." :: stack else stack)
        else rest
    | [] => if allowAboveRoot then [".."] else []
    end
  else seg :: stack.

Definition normalizeString (path : string) (allowAboveRoot : bool) : string :=
  join "/" (List.rev (fold_left (norm_step allowAboveRoot) (segments path) [])).

(** The loop of [resolve], from the last argument to the first and then
    [process.cwd()]: empty arguments are skipped, and the loop stops at
    the first absolute one. *)
Fixpoint gather (paths : list string) (resolvedPath : string) : string * bool :=
  match paths with
  | [] => (resolvedPath, false)
  | p :: rest =>
      if String.eqb p "" then gather rest resolvedPath
      else
        let resolvedPath' := p +:+ "/" +:+ resolvedPath in
        if startsWith "/" p then (resolvedPath', true)
        else gather rest resolvedPath'
  end.

Definition resolve (pcwd : string) (args : list string) : string :=
  let '(resolvedPath, resolvedAbsolute) := gather (List.rev args ++ [pcwd]) "" in
  let n := normalizeString resolvedPath (negb resolvedAbsolute) in
  if resolvedAbsolute then "/" +:+ n
  else if String.eqb n "" then "." else n.

(** [dirname]: the scan runs from the last character down to index 1. *)
Definition dirname (path : string) : string :=
  match path with
  | EmptyString => "."
  | String c tl =>
      let hasRoot := is_slash c in
      let r1 := dropWhile is_slash (JsString.rev tl) in
      let r2 := dropWhile not_slash r1 in
      match r2 with
      | EmptyString => if hasRoot then "/" else "."
      | String _ r3 =>
          if hasRoot && String.eqb r3 "" then "//"
          else String c (JsString.rev r3)
      end
  end.

(** [basename] with one argument: the last segment, trailing slashes
    ignored. *)
Definition basename (path : string) : string :=
  JsString.rev (takeWhile not_slash (dropWhile is_slash (JsString.rev path))).

End Path.

(** ** JavaScript values of the entry resolver

    [getInput] chains [&&] and [||] over operands of different types; the
    chain is kept as it is written, over the values that occur in it. *)

Module JsVal.

Inductive jsval : Type :=
| VUndef : jsval
| VBool : bool -> jsval
| VStr : string -> jsval
| VArr : list string -> jsval.

Definition truthy (v : jsval) : bool :=
  match v with
  | VUndef => false
  | VBool b => b
  | VStr s => JsString.truthy s
  | VArr _ => true
  end.

(** [a || b] and [a && b]. *)
Definition or_ (a b : jsval) : jsval := if truthy a then a else b.
Definition and_ (a b : jsval) : jsval := if truthy a then b else a.

Definition of_opt (o : option string) : jsval :=
  match o with
  | Some s => VStr s
  | None => VUndef
  end.

End JsVal.

(** A parsed JSON value: the [minify] / [mangle] field of the manifest
    and the content of the name-cache file. *)
Inductive json : Type :=
| JNull : json
| JBool : bool -> json
| JNum : Z -> json
| JStr : string -> json
| JArr : list json -> json
| JObj : list (string * json) -> json.

(** ** The environment of a run

    What the program reads from outside: the process working directory
    and the answers of the file system ([isFile], [isDir] of [./utils],
    [glob] of tiny-glob, [fs.readFileSync], which throws on a missing
    file: [None]). *)

Record Env : Type := {
  process_cwd : string;
  isFile : string -> bool;
  isDir : string -> bool;
  glob : string -> list string;
  readFileSync : string -> option string;
  JSON_parse : string -> option json;     (* [None]: a [SyntaxError] *)
}.

(** ** The manifest and the options *)

(** The [source] field: absent, one file, or an array of files. *)
Inductive source_field : Type :=
| SourceAbsent : source_field
| SourceOne : string -> source_field
| SourceMany : list string -> source_field.

Record Pkg : Type := {
  pkg_name : option string;
  pkg_main_field : option string;
  pkg_module : option string;
  pkg_jsnext_main : option string;
  pkg_cjs_main : option string;
  pkg_umd_main : option string;
  pkg_esmodule : option string;
  pkg_syntax_esmodules : option string;
  pkg_source : source_field;
  pkg_peerDependencies : list string;
  pkg_dependencies : list string;
  pkg_minify : option json;
  pkg_mangle : option json;
}.

Record Options : Type := {
  cwd : string;
  pkg : Pkg;
  opt_pkg_main : bool;              (* truthiness of options['pkg-main'] *)
  output : string;
  entries : list string;
  name : string;
  multipleEntries : bool;
  alias : option string;
  external : option string;
  globals : option string;
  sourcemap : bool;
  strict : bool;
  compress : bool;                  (* options.compress !== false *)
  watch : bool;
}.

(** ** Entry resolver *)

Section EntryResolver.
Import JsVal.
Variable env : Env.

Definition resolve := Path.resolve (process_cwd env).

(** [jsOrTs(cwd, filename)]. *)
Definition jsOrTs (cwd filename : string) : string :=
  let extension :=
    if isFile env (resolve [cwd; filename +:+ ".ts"]) then ".ts"
    else if isFile env (resolve [cwd; filename +:+ ".tsx"]) then ".tsx"
    else ".js" in
  resolve [cwd; filename +:+ extension].

Definition source_val (cwd : string) (source : source_field) : jsval :=
  match source with
  | SourceAbsent => VUndef
  | SourceOne file => and_ (VStr file) (VArr [resolve [cwd; file]])
  | SourceMany files => VArr (map (fun file => resolve [cwd; file]) files)
  end.

(** The operand of [[].concat(...)] in [getInput]. *)
Definition getInput_candidate (entries : option (list string)) (cwd : string)
    (source : source_field) (module : option string) : jsval :=
  match entries with
  | Some (e :: es) => VArr (e :: es)
  | _ =>
      or_ (source_val cwd source)
        (or_ (and_ (VBool (isDir env (resolve [cwd; "src"])))
                   (VStr (jsOrTs cwd "src/index")))
          (or_ (VStr (jsOrTs cwd "index"))
               (of_opt module)))
  end.

(** [getInput].  [glob] (tiny-glob) returns no file for a falsy
    argument. *)
Definition getInput (entries : option (list string)) (cwd : string)
    (source : source_field) (module : option string) : list string :=
  match getInput_candidate entries cwd source module with
  | VArr files => flat_map (glob env) files
  | VStr file => if JsString.truthy file then glob env file else []
  | VUndef | VBool _ => []
  end.

(** [arr.filter((item, i, arr) => arr.indexOf(item) === i)]: the first
    occurrence of each item is kept. *)
Fixpoint uniq (seen l : list string) : list string :=
  match l with
  | [] => []
  | x :: r =>
      if existsb (String.eqb x) seen then uniq seen r
      else x :: uniq (x :: seen) r
  end.

Definition getEntries (input : list string) (cwd : string) : list string :=
  uniq []
    (map (fun file =>
            let file := resolve [cwd; file] in
            if isDir env file then resolve [file; "index.js"] else file)
         input).

(** [getEntries] on one file of the input. *)
Definition entry_of (cwd file : string) : string :=
  let file := resolve [cwd; file] in
  if isDir env file then resolve [file; "index.js"] else file.

(** *** The choice of [getInput] as a decision table

    The index file that stands for [filename]: the [.ts] file when it
    exists, else the [.tsx] file when it exists, else the [.js] file,
    whether it exists or not. *)
Definition index_by_preference (cwd filename : string) : string :=
  if isFile env (resolve [cwd; filename +:+ ".ts"])
  then resolve [cwd; filename +:+ ".ts"]
  else if isFile env (resolve [cwd; filename +:+ ".tsx"])
  then resolve [cwd; filename +:+ ".tsx"]
  else resolve [cwd; filename +:+ ".js"].

(** The candidate that is handed to [glob]: the entries when there are
    some; else the source field(s) when the field is set; else the
    index file of [src] when [src] is a directory; else the index file
    of the root. *)
Definition getInput_choice (entries : option (list string)) (cwd : string)
    (source : source_field) : list string :=
  match entries with
  | Some (e :: es) => e :: es
  | _ =>
      match source with
      | SourceMany files => map (fun file => resolve [cwd; file]) files
      | SourceOne file =>
          if JsString.truthy file then [resolve [cwd; file]]
          else if isDir env (resolve [cwd; "src"])
          then [index_by_preference cwd "src/index"]
          else [index_by_preference cwd "index"]
      | SourceAbsent =>
          if isDir env (resolve [cwd; "src"])
          then [index_by_preference cwd "src/index"]
          else [index_by_preference cwd "index"]
      end
  end.

(** The one situation in which the operand [|| module] of [getInput]
    could be asked for: no entries, no source field, no [src]
    directory, none of the three root index files, and a [module]
    field that is set. *)
Definition module_fallback_at_issue (entries : option (list string))
    (cwd : string) (source : source_field) (module : option string) : bool :=
  match entries with Some (_ :: _) => false | _ => true end
  && match source with
     | SourceAbsent => true
     | SourceOne file => negb (JsString.truthy file)
     | SourceMany _ => false
     end
  && negb (isDir env (resolve [cwd; "src"]))
  && negb (isFile env (resolve [cwd; "index.ts"]))
  && negb (isFile env (resolve [cwd; "index.tsx"]))
  && negb (isFile env (resolve [cwd; "index.js"]))
  && JsString.truthy_opt module.

(** *** Entry resolution in the words of the specification

    The candidates in the order of the contract, each one empty when
    what it names is absent; the first one that is not empty is
    expanded through [glob]. *)
Definition spec_index_file (cwd filename : string) : list string :=
  if isFile env (resolve [cwd; filename +:+ ".ts"])
  then [resolve [cwd; filename +:+ ".ts"]]
  else if isFile env (resolve [cwd; filename +:+ ".tsx"])
  then [resolve [cwd; filename +:+ ".tsx"]]
  else if isFile env (resolve [cwd; filename +:+ ".js"])
  then [resolve [cwd; filename +:+ ".js"]]
  else [].

Definition spec_candidates (entries : option (list string)) (cwd : string)
    (source : source_field) (module : option string) : list (list string) :=
  [ default [] entries;
    match source with
    | SourceAbsent => []
    | SourceOne file => [resolve [cwd; file]]
    | SourceMany files => map (fun file => resolve [cwd; file]) files
    end;
    spec_index_file cwd "src/index";
    spec_index_file cwd "index";
    match module with
    | Some m => [m]
    | None => []
    end ].

Fixpoint first_non_empty (candidates : list (list string)) : list string :=
  match candidates with
  | [] => []
  | [] :: rest => first_non_empty rest
  | c :: _ => c
  end.

Definition spec_getInput (entries : option (list string)) (cwd : string)
    (source : source_field) (module : option string) : list string :=
  flat_map (glob env) (first_non_empty (spec_candidates entries cwd source module)).

End EntryResolver.

(** ** Helpers of the repository that are outside [src/index.js]

    [./utils] and [./lib/*] are called by the code below; their results
    are taken as they come. *)

(** An element of the external list: a string, or a [RegExp]. *)
Inductive External : Type :=
| Literal : string -> External
| Pattern : Regex.regex -> string -> External.   (* the pattern and its [source] text *)

Record Alias : Type := { find : string; replacement : string }.

Record Lib : Type := {
  removeScope : option string -> string;
  parseAliasArgument : string -> list Alias;
  parseExternals : option string -> list string -> list string -> list External;
  parseMappingArgument : string -> gmap string string;
  normalizeMinifyOptions : json -> json;
  getConfigFromPkgJson : string -> bool * Pkg;
  getName : option string -> Pkg -> bool -> string -> string * option string;
}.

(** ** Output path planner *)

Module Patterns.
Import Regex.

Definition lower : list ascii :=
  list_ascii_of_string "abcdefghijklmnopqrstuvwxyz".

(** [(\.(umd|cjs|es|m))?] *)
Definition format_tag : regex :=
  Opt (Seq (Chr ".")
        (alternation [lit "umd"; lit "cjs"; lit "es"; lit "m"])).

(** [\.(mjs|[tj]sx?)] *)
Definition script_ext : regex :=
  Seq (Chr ".")
    (Alt (lit "mjs")
         (Seq (OneOf ["t"; "j"]%char) (Seq (Chr "s") (Opt (Chr "x"))))).

(** [/([\\/])index(\.(umd|cjs|es|m))?\.(mjs|[tj]sx?)$/] *)
Definition index_entry : regex :=
  Seq (OneOf ["\"; "/"]%char)
    (Seq (lit "index") (Seq format_tag (Seq script_ext Eos))).

(** [/(\.(umd|cjs|es|m))?\.(mjs|[tj]sx?)$/] *)
Definition tagged_ext : regex :=
  Seq format_tag (Seq script_ext Eos).

(** [/\.[a-z]+$/] *)
Definition has_ext : regex :=
  Seq (Chr ".") (Seq (OneOf lower) (Seq (Star (OneOf lower)) Eos)).

End Patterns.

Section OutputPlanner.
Variable env : Env.
Variable lib : Lib.

Let resolve := Path.resolve (process_cwd env).

(** [getOutput({ cwd, output, pkgMain, pkgName })]. *)
Definition getOutput (cwd : string) (output pkgMain pkgName : option string) : string :=
  let main :=
    resolve [cwd; JsString.or_else output (JsString.or_else pkgMain "dist")] in
  if negb (Regex.test Patterns.has_ext main) || isDir env main
  then resolve [main; removeScope lib pkgName +:+ ".js"]
  else main.

Definition not_dot (c : ascii) : bool := negb (Ascii.eqb c ".").

(** [replaceName(filename, name)]; [.replace(/^[^.]+/, '')] drops the
    characters before the first dot. *)
Definition replaceName (filename name : string) : string :=
  resolve [Path.dirname filename;
           name +:+ JsString.dropWhile not_dot (Path.basename filename)].

(** [mainNoExtension] of [getMain]. *)
Definition mainNoExtension (options : Options) (entry : string) : string :=
  let mainNoExtension := output options in
  let name :=
    if Regex.test Patterns.index_entry entry then mainNoExtension else entry in
  let mainNoExtension :=
    resolve [Path.dirname mainNoExtension; Path.basename name] in
  Regex.strip_suffix Patterns.tagged_ext mainNoExtension.

(** The template of the [es] format:
    [pkg.module && !pkg.module.match(/src\//) ? pkg.module
       : pkg['jsnext:main'] || 'x.esm.js']. *)
Definition es_template (p : Pkg) : string :=
  match pkg_module p with
  | Some m =>
      if JsString.truthy m && negb (JsString.includes "src/" m) then m
      else JsString.or_else (pkg_jsnext_main p) "x.esm.js"
  | None => JsString.or_else (pkg_jsnext_main p) "x.esm.js"
  end.

(** [(pkg.syntax && pkg.syntax.esmodules) || pkg.esmodule || 'x.modern.js'] *)
Definition modern_template (p : Pkg) : string :=
  JsString.or_else (pkg_syntax_esmodules p)
    (JsString.or_else (pkg_esmodule p) "x.modern.js").

Definition cjs_template (p : Pkg) : string :=
  JsString.or_else (pkg_cjs_main p) "x.js".

Definition umd_template (p : Pkg) : string :=
  JsString.or_else (pkg_umd_main p) "x.umd.js".

(** The object [mainsByFormat], keys [es], [modern], [cjs], [umd]. *)
Definition mainsByFormat (options : Options) (entry : string) : gmap string string :=
  let m := mainNoExtension options entry in
  let p := pkg options in
  <["umd" := replaceName (umd_template p) m]>
  (<["cjs" := replaceName (cjs_template p) m]>
  (<["modern" := replaceName (modern_template p) m]>
  (<["es" := replaceName (es_template p) m]> ∅))).

(** [getMain({ options, entry, format })].  [mainsByFormat[format] ||
    mainsByFormat.cjs]: a format outside the four keys gets the [cjs]
    name.  The formats that name a member of [Object.prototype]
    ([object_prototype_members] below) are left out of the model: for
    such a format the code reads the inherited member, which is not a
    path. *)
Definition getMain (options : Options) (entry : string) (format : string) : string :=
  if negb (opt_pkg_main options) then output options
  else
    let mains := mainsByFormat options entry in
    match mains !! format with
    | Some path => if JsString.truthy path then path else mains !!! "cjs"
    | None => mains !!! "cjs"
    end.

End OutputPlanner.

(** The names that every plain object inherits from
    [Object.prototype]. *)
Definition object_prototype_members : list string :=
  [ "constructor"; "hasOwnProperty"; "isPrototypeOf"; "propertyIsEnumerable";
    "toLocaleString"; "toString"; "valueOf"; "__proto__";
    "__defineGetter__"; "__defineSetter__";
    "__lookupGetter__"; "__lookupSetter__" ].

(** ** Shebang preserver *)

Module Shebang.

Definition newline : ascii := "010"%char.
Definition not_newline (c : ascii) : bool := negb (Ascii.eqb c newline).

(** The process-wide cache [shebang], keyed by build name: the texts
    that were assigned, by name.  (An assignment under the name
    [__proto__] is recorded here as well, although a plain object
    stores nothing for it; the read [banner] below takes that into
    account.) *)
Abbreviation cache := (gmap string string).

(** The [transform] hook:
    [code.replace(/^#![^\n]*/, bang => { shebang[options.name] = bang; })].
    The callback returns nothing, so the matched text is replaced by
    the text of [undefined]. *)
Definition transform (name : string) (code : string) (shebang : cache)
  : string * cache :=
  if JsString.startsWith "#!" code then
    let bang := JsString.takeWhile not_newline code in
    ("undefined" +:+ JsString.dropWhile not_newline code,
     <[name := bang]> shebang)
  else (code, shebang).

(** The directive of a Node script. *)
Definition node_directive : string := "#!/usr/bin/env node".

Definition first_line (text : string) : string :=
  JsString.takeWhile not_newline text.

(** The hook over the modules of one build, in the order in which the
    engine hands them over: the texts that go on to compilation, and
    the cache after the last one. *)
Fixpoint transform_modules (name : string) (codes : list string) (shebang : cache)
  : list string * cache :=
  match codes with
  | [] => ([], shebang)
  | code :: rest =>
      let '(body, shebang1) := transform name code shebang in
      let '(bodies, shebang2) := transform_modules name rest shebang1 in
      (body :: bodies, shebang2)
  end.

End Shebang.

(** ** Output configuration *)

Record OutputOptions : Type := {
  o_paths : gmap string string;
  o_globals : option (gmap string string);
  o_strict : bool;
  o_freeze : bool;
  o_esModule : bool;
  o_sourcemap : bool;
  o_format : string;
  o_name : string;
  o_dir : string;
  o_entryFileNames : string;
}.

(** What a read [object[name]] of a plain object gives. *)
Inductive member : Type :=
| Own : string -> member
| Inherited : string -> member
| Undefined : member.

(** The getter [banner] of an output configuration,
    [shebang[options.name]], read from the cache when the engine asks
    for it. The cache is a plain object: the name [__proto__] reads
    its prototype whatever was assigned under it (the assignment of a
    text to [__proto__] stores nothing), and a name with no entry that
    is a member of [Object.prototype] reads that member. *)
Definition banner (shebang : Shebang.cache) (o : OutputOptions) : member :=
  let name := o_name o in
  if String.eqb name "__proto__" then Inherited name
  else
    match shebang !! name with
    | Some bang => Own bang
    | None =>
        if existsb (String.eqb name) object_prototype_members
        then Inherited name
        else Undefined
    end.

Section OutputConfig.
Variable env : Env.

Let resolve := Path.resolve (process_cwd env).

Definition outputAliases (options : Options) : gmap string string :=
  if multipleEntries options
  then {[ "." := "./" +:+ Path.basename (output options) ]}
  else ∅.

Definition format_of (format : string) : string :=
  if String.eqb format "modern" then "es" else format.

Definition outputOptions_at (options : Options) (format absMain : string)
  : OutputOptions :=
  {| o_paths := outputAliases options;
     o_globals := None;
     o_strict := strict options;
     o_freeze := false;
     o_esModule := false;
     o_sourcemap := sourcemap options;
     o_format := format_of format;
     o_name := name options;
     o_dir := Path.dirname absMain;
     o_entryFileNames := "[name].js" |}.

(** [absMain]: [resolve(options.cwd, getMain({ options, entry, format }))]. *)
Definition absMain (options : Options) (entry format : string) : string :=
  resolve [cwd options; getMain env options entry format].

(** [getConfigOutput(options, format, writeMeta)].  With no entry,
    [options.entries[0]] is [undefined], and [getMain] throws as soon as
    it reads it ([None]); with [pkg-main] off it does not read it. *)
Definition getConfigOutput (options : Options) (format : string) (writeMeta : bool)
  : option OutputOptions :=
  match entries options with
  | entry :: _ =>
      Some (outputOptions_at options format (absMain options entry format))
  | [] =>
      if opt_pkg_main options then None
      else Some (outputOptions_at options format (absMain options "" format))
  end.

End OutputConfig.

(** ** External classifier *)

Section ExternalClassifier.
Variable lib : Lib.
Import Regex.

Definition builtins : list External :=
  [Literal "dns"; Literal "fs"; Literal "path"; Literal "url"].

(** [ext instanceof RegExp ? ext.source : escapeStringRegexp(ext)], as
    the pattern the text denotes inside the alternation. *)
Definition escapeStringExternals (ext : External) : regex :=
  match ext with
  | Pattern r _ => r
  | Literal s => lit s
  end.

(** [new RegExp(`^(${...join('|')})($|/)`)]; the leading [^] is the
    anchored test below. *)
Definition externalPredicate (external : list External) : regex :=
  Seq (alternation (map escapeStringExternals external))
      (Alt Eos (Chr "/")).

Definition externalTest (external : list External) (id : string) : bool :=
  match external with
  | [] => false
  | _ => test_anchored (externalPredicate external) id
  end.

Definition moduleAliases (options : Options) : list Alias :=
  match alias options with
  | Some a => if JsString.truthy a then parseAliasArgument lib a else []
  | None => []
  end.

Definition aliasIds (options : Options) : list string :=
  map find (moduleAliases options).

Definition async_helpers : string :=
  "babel-plugin-transform-async-to-promises/helpers".

(** The [external] function of both configurations, over the external
    list of the configuration. *)
Definition external_fn (options : Options) (external : list External) (id : string)
  : bool :=
  if String.eqb id async_helpers then false
  else if multipleEntries options && String.eqb id "." then true
  else if existsb (String.eqb id) (aliasIds options) then false
  else externalTest external id.

Definition parsedExternals (options : Options) : list External :=
  parseExternals lib (external options)
    (pkg_peerDependencies (pkg options)) (pkg_dependencies (pkg options)).

(** The external list of [getConfigInput]: built-ins, every entry, the
    parsed externals. *)
Definition getConfigInput_externals (options : Options) : list External :=
  builtins ++ map Literal (entries options) ++ parsedExternals options.

(** [getConfigInput(options).external]. *)
Definition getConfigInput_external (options : Options) : string -> bool :=
  external_fn options (getConfigInput_externals options).

End ExternalClassifier.

(** ** Global names

    [camelCase] of the camelcase package, for the input it is given
    here: a name that passed [/^[a-z_$][a-z0-9_\-$]*$/], so without
    blanks around it and without upper-case letters. *)

Module CamelCase.

Definition is_sep (c : ascii) : bool :=
  Regex.mem c ["_"; "."; "-"; " "]%char.

Definition is_digit (c : ascii) : bool :=
  let n := nat_of_ascii c in (48 <=? n)%nat && (n <=? 57)%nat.

Definition is_lower (c : ascii) : bool :=
  let n := nat_of_ascii c in (97 <=? n)%nat && (n <=? 122)%nat.

Definition is_upper (c : ascii) : bool :=
  let n := nat_of_ascii c in (65 <=? n)%nat && (n <=? 90)%nat.

(** [\w] *)
Definition is_word (c : ascii) : bool :=
  is_lower c || is_upper c || is_digit c || Ascii.eqb c "_".

Definition toUpperCase (c : ascii) : ascii :=
  if is_lower c then ascii_of_nat (nat_of_ascii c - 32) else c.

Definition toLowerCase (c : ascii) : ascii :=
  if is_upper c then ascii_of_nat (nat_of_ascii c + 32) else c.

Fixpoint lowercase (s : string) : string :=
  match s with
  | EmptyString => EmptyString
  | String c t => String (toLowerCase c) (lowercase t)
  end.

(** A run of separators that is followed by a character outside [\w]:
    the pattern [[_.\- ]+(\w|$)] can only match by giving back
    separators until the one it stops at is [_]; the run is given
    last character first. *)
Fixpoint give_back (run_rev : string) : option string :=
  match run_rev with
  | EmptyString => None
  | String c before =>
      if Ascii.eqb c "_" then
        match before with
        | EmptyString => None
        | String _ _ => Some "_"
        end
      else option_map (fun r => r +:+ String c "") (give_back before)
  end.

(** [.replace(/[_.\- ]+(\w|$)/g, (_, p1) => p1.toUpperCase())], with the
    separators read so far in [run_rev]. *)
Fixpoint join_words (run_rev : string) (s : string) : string :=
  match s with
  | EmptyString => EmptyString
  | String c t =>
      if is_sep c then join_words (String c run_rev) t
      else
        match run_rev with
        | EmptyString => String c (join_words "" t)
        | String _ _ =>
            if is_word c then String (toUpperCase c) (join_words "" t)
            else
              match give_back run_rev with
              | Some kept => kept +:+ String c (join_words "" t)
              | None => JsString.rev run_rev +:+ String c (join_words "" t)
              end
        end
  end.

(** [.replace(/\d+(\w|$)/g, m => m.toUpperCase())]: the letter after a
    run of digits is raised. *)
Fixpoint raise_after_digits (after_digit : bool) (s : string) : string :=
  match s with
  | EmptyString => EmptyString
  | String c t =>
      String (if after_digit then toUpperCase c else c)
             (raise_after_digits (is_digit c) t)
  end.

Definition camelCase (input : string) : string :=
  match input with
  | EmptyString => ""
  | String c EmptyString => String (toLowerCase c) ""
  | _ =>
      raise_after_digits false
        (join_words "" (lowercase (JsString.dropWhile is_sep input)))
  end.

End CamelCase.

(** ** Name-cache manager *)

Module NameCache.

(** The variable [nameCache] of [createConfig]: still the object it was
    initialised with ([bareNameCache]), or a value read from the file. *)
Inductive ref : Type :=
| Bare : ref
| Loaded : json -> ref.

Definition truthy (v : json) : bool :=
  match v with
  | JNull => false
  | JBool b => b
  | JNum z => negb (Z.eqb z 0)
  | JStr s => JsString.truthy s
  | JArr _ | JObj _ => true
  end.

Definition is_string (v : json) : bool :=
  match v with JStr _ => true | _ => false end.

Fixpoint assoc (k : string) (l : list (string * json)) : option json :=
  match l with
  | [] => None
  | (k', v) :: r => if String.eqb k k' then Some v else assoc k r
  end.

(** [v.minify]; reading a property of [null] throws ([None]). *)
Definition get_minify (v : json) : option (option json) :=
  match v with
  | JNull => None
  | JObj l => Some (assoc "minify" l)
  | _ => Some None
  end.

(** The members of a list under their indices, from [i] on. *)
Fixpoint indexed {A : Type} (f : A -> json) (i : nat) (l : list A)
  : list (string * json) :=
  match l with
  | [] => []
  | x :: r => (NilZero.string_of_uint (Nat.to_uint i), f x) :: indexed f (S i) r
  end.

(** The own enumerable properties that [Object.assign] copies from a
    source: the members of an object, the elements of an array and the
    characters of a text under their indices; nothing from [null], a
    boolean or a number. *)
Definition props (v : json) : list (string * json) :=
  match v with
  | JObj l => l
  | JArr l => indexed (fun x => x) 0 l
  | JStr s => indexed (fun c => JStr (String c EmptyString)) 0 (list_ascii_of_string s)
  | JNull | JBool _ | JNum _ => []
  end.

(** [target[key] = value] on the target of [Object.assign]: the value
    of a key that the target has is replaced, another key is added; an
    assignment to [__proto__] adds no key. *)
Definition put (target : list (string * json)) (kv : string * json)
  : list (string * json) :=
  if String.eqb (fst kv) "__proto__" then target
  else if existsb (fun e => String.eqb (fst e) (fst kv)) target
  then map (fun e => if String.eqb (fst e) (fst kv) then kv else e) target
  else target ++ [kv].

(** [Object.assign({}, a, b)]; the members are listed in the order in
    which they were first assigned (the enumeration order of the
    engine, which lists index keys before the others, is not
    modelled). *)
Definition assign (a b : json) : json :=
  JObj (fold_left put (props b) (fold_left put (props a) [])).

(** [pkg.minify || pkg.mangle || {}] *)
Definition rawMinifyValue (p : Pkg) : json :=
  match pkg_minify p with
  | Some v => if truthy v then v else
      match pkg_mangle p with
      | Some w => if truthy w then w else JObj []
      | None => JObj []
      end
  | None =>
      match pkg_mangle p with
      | Some w => if truthy w then w else JObj []
      | None => JObj []
      end
  end.

Definition getNameCachePath (pcwd cwd : string) (raw : json) : string :=
  match raw with
  | JStr path => Path.resolve pcwd [cwd; path]
  | _ => Path.resolve pcwd [cwd; "mangle.json"]
  end.

(** [loadNameCache()]: the body of the [try]; every [throw] inside it
    leaves the state as it is at that point. *)
Definition loadNameCache (env : Env) (path : string) (st : ref * json)
  : ref * json :=
  let '(nameCache, minifyOptions) := st in
  match readFileSync env path with
  | None => st
  | Some text =>
      match JSON_parse env text with
      | None => st
      | Some v =>
          match get_minify v with
          | None => (Loaded v, minifyOptions)
          | Some (Some m) =>
              if truthy m
              then (Loaded v,
                    assign (if truthy minifyOptions then minifyOptions else JObj []) m)
              else (Loaded v, minifyOptions)
          | Some None => (Loaded v, minifyOptions)
          end
      end
  end.

(** [if (nameCache === bareNameCache) nameCache = null]. *)
Definition finish (r : ref) : json :=
  match r with
  | Bare => JNull
  | Loaded v => v
  end.

End NameCache.

(** ** One configuration per entry and format: [createConfig] *)

Module Ident.
Import Regex.

Definition digits : list ascii := list_ascii_of_string "0123456789".

(** [/^[a-z_$][a-z0-9_\-$]*$/]; the leading [^] is the anchored test. *)
Definition global_name : regex :=
  Seq (OneOf (Patterns.lower ++ ["_"; "$"]%char))
    (Seq (Star (OneOf (Patterns.lower ++ digits ++ ["_"; "-"; "$"]%char))) Eos).

End Ident.

Record Config : Type := {
  c_input : string;
  c_external : string -> bool;
  c_minifyOptions : json;
  c_terser_nameCache : option json;   (* [None]: compression off, no minifier *)
  c_outputOptions : OutputOptions;
}.

Section CreateConfig.
Variable env : Env.
Variable lib : Lib.

Let resolve := Path.resolve (process_cwd env).

(** The external list of [createConfig]: built-ins, the other entries,
    the parsed externals. *)
Definition createConfig_externals (options : Options) (entry : string)
  : list External :=
  builtins
    ++ map Literal (List.filter (fun e => negb (String.eqb e entry)) (entries options))
    ++ parsedExternals lib options.

(** [if (name instanceof RegExp) name = name.source] *)
Definition external_name (ext : External) : string :=
  match ext with
  | Pattern _ source => source
  | Literal s => s
  end.

(** The body of the [reduce] that derives the global names:
    [globals[name] = camelCase(name)] when the name has the form of an
    identifier. The name [__proto__] has that form, but the assignment
    of a text to [__proto__] adds no key to a plain object. *)
Definition add_global (globals : gmap string string) (ext : External)
  : gmap string string :=
  let name := external_name ext in
  if Regex.test_anchored Ident.global_name name
  then
    if String.eqb name "__proto__" then globals
    else <[name := CamelCase.camelCase name]> globals
  else globals.

Definition auto_globals (external : list External) : gmap string string :=
  fold_left add_global external ∅.

(** The mapping that the caller gave, when
    [options.globals && options.globals !== 'none']. *)
Definition user_globals (options : Options) : option (gmap string string) :=
  match globals options with
  | Some g =>
      if JsString.truthy g && negb (String.eqb g "none")
      then Some (parseMappingArgument lib g)
      else None
  | None => None
  end.

(** [globals], after [Object.assign(globals, parseMappingArgument(...))]. *)
Definition createConfig_globals (options : Options) (external : list External)
  : gmap string string :=
  let auto := auto_globals external in
  match user_globals options with
  | Some mapping => mapping ∪ auto
  | None => auto
  end.

(** The name cache and the minify options, after the first
    [loadNameCache()] and [normalizeMinifyOptions]. *)
Definition createConfig_nameCache (options : Options) : json * json :=
  let rawMinifyValue := NameCache.rawMinifyValue (pkg options) in
  let minifyOptions :=
    if NameCache.is_string rawMinifyValue then JObj [] else rawMinifyValue in
  let path :=
    NameCache.getNameCachePath (process_cwd env) (cwd options) rawMinifyValue in
  let '(nameCache, minifyOptions) :=
    NameCache.loadNameCache env path (NameCache.Bare, minifyOptions) in
  (NameCache.finish nameCache, normalizeMinifyOptions lib minifyOptions).

(** [createConfig(options, entry, format, writeMeta)]. *)
Definition createConfig (options : Options) (entry format : string)
    (writeMeta : bool) : Config :=
  let external := createConfig_externals options entry in
  let '(nameCache, minifyOptions) := createConfig_nameCache options in
  let absMain := absMain env options entry format in
  {| c_input := entry;
     c_external := external_fn lib options external;
     c_minifyOptions := minifyOptions;
     c_terser_nameCache := if compress options then Some nameCache else None;
     c_outputOptions :=
       {| o_paths := outputAliases options;
          o_globals := Some (createConfig_globals options external);
          o_strict := strict options;
          o_freeze := false;
          o_esModule := false;
          o_sourcemap := sourcemap options;
          o_format := format_of format;
          o_name := name options;
          o_dir := Path.dirname absMain;
          o_entryFileNames := Path.basename absMain |} |}.

End CreateConfig.

(** ** [Array.prototype.sort]

    The comparator that [microbundle] passes is not a consistent one, so
    the result depends on the algorithm.  This is the algorithm of V8
    (Node 11 and later) for an array shorter than 64 elements: the
    leading run is found and made ascending, the other elements are put
    in place by binary insertion. *)

Module ArraySort.
Section Sort.
Context {A : Type}.
Variable comparefn : A -> A -> Z.

(** The rest of the leading run, after [prev]. *)
Fixpoint extend_run (isDescending : bool) (prev : A) (l : list A)
  : list A * list A :=
  match l with
  | [] => ([], [])
  | current :: rest =>
      let order := comparefn current prev in
      if (if isDescending then (0 <=? order)%Z else (order <? 0)%Z)
      then ([], l)
      else let '(run, remaining) := extend_run isDescending current rest in
           (current :: run, remaining)
  end.

Definition CountAndMakeRun (l : list A) : list A * list A :=
  match l with
  | [] => ([], [])
  | [x] => ([x], [])
  | x0 :: x1 :: rest =>
      let isDescending := (comparefn x1 x0 <? 0)%Z in
      let '(run, remaining) := extend_run isDescending x1 rest in
      let run := x0 :: x1 :: run in
      (if isDescending then List.rev run else run, remaining)
  end.

(** The binary search of [BinaryInsertionSort] over the sorted
    prefix. *)
Fixpoint search (fuel : nat) (pivot : A) (sorted : list A) (left right : nat)
  : nat :=
  match fuel with
  | O => left
  | S fuel' =>
      if (left <? right)%nat then
        let mid := (left + (right - left) / 2)%nat in
        match sorted !! mid with
        | Some element =>
            if (comparefn pivot element <? 0)%Z
            then search fuel' pivot sorted left mid
            else search fuel' pivot sorted (mid + 1)%nat right
        | None => left
        end
      else left
  end.

Definition insert_pivot (sorted : list A) (pivot : A) : list A :=
  let left := search (length sorted) pivot sorted 0 (length sorted) in
  take left sorted ++ pivot :: drop left sorted.

Definition sort (l : list A) : list A :=
  let '(run, remaining) := CountAndMakeRun l in
  fold_left insert_pivot remaining run.

End Sort.
End ArraySort.

(** ** Build orchestrator *)

(** [WATCH_OPTS] *)
Definition WATCH_OPTS_exclude : string := "node_modules/**".

(** What [watch(...)] is called with: the input options of a step, its
    output options, and the watch options. *)
Record Watcher : Type := {
  w_input : string;
  w_external : string -> bool;
  w_output : OutputOptions;
  w_exclude : string;
}.

(** What a call of [microbundle] comes to: the handle of watch mode, the
    output options of the writes of a one-shot build in the order of the
    writes, or an exception of the program itself. *)
Inductive Outcome : Type :=
| Watching : gmap string Watcher -> Outcome
| Written : list (string * OutputOptions) -> Outcome
| Thrown : Outcome.

Record InputOptions : Type := {
  in_cwd : string;
  in_entries : option (list string);
  in_output : option string;
  in_name : option string;
  in_format : option string;
  in_formats : string;
  in_pkg_main : bool;
  in_alias : option string;
  in_external : option string;
  in_globals : option string;
  in_sourcemap : bool;              (* options.sourcemap !== false *)
  in_strict : bool;                 (* options.strict === true *)
  in_compress : bool;
  in_watch : bool;
}.

Section Orchestrator.
Variable env : Env.
Variable lib : Lib.

Let resolve := Path.resolve (process_cwd env).

(** [(a, b) => (a === 'cjs' ? -1 : a > b ? 1 : 0)] *)
Definition compare_formats (a b : string) : Z :=
  if String.eqb a "cjs" then (-1)%Z
  else if JsString.gt a b then 1%Z else 0%Z.

Definition is_cjs (format : string) : bool := String.eqb format "cjs".
Definition not_cjs (format : string) : bool := negb (is_cjs format).

(** [formats], split and sorted. *)
(** The order with every request for [cjs] first and the other
    requests as they were made. *)
Definition cjs_first (l : list string) : list string :=
  List.filter is_cjs l ++ List.filter not_cjs l.

Definition requested_formats (format : option string) (formats : string)
  : list string :=
  JsString.split "," (JsString.or_else format formats).

Definition sorted_formats (format : option string) (formats : string) : list string :=
  ArraySort.sort compare_formats (requested_formats format formats).

(** [doWatch(options, cwd, steps)]: the object [watchers], one key per
    [inputOptions.input]; a later step with the same input takes the
    place of an earlier one. *)
Definition doWatch (options : Options) (cwd : string) (steps : list Config)
  : gmap string Watcher :=
  fold_left
    (fun acc step =>
       <[c_input step :=
           {| w_input := c_input step;
              w_external := c_external step;
              w_output := c_outputOptions step;
              w_exclude := WATCH_OPTS_exclude |}]> acc)
    steps ∅.

(** The loop of the one-shot build: [bundle.write(getConfigOutput(options,
    formats[i], i === 0))] for [i = 0, 1, ...]. *)
Fixpoint write_all (options : Options) (i : nat) (formats : list string)
  : option (list (string * OutputOptions)) :=
  match formats with
  | [] => Some []
  | format :: rest =>
      match getConfigOutput env options format (i =? 0)%nat with
      | None => None
      | Some o =>
          match write_all options (S i) rest with
          | None => None
          | Some out => Some ((format, o) :: out)
          end
      end
  end.

(** [options.pkg.name = pkgName] *)
Definition set_pkg_name (p : Pkg) (pkgName : option string) : Pkg :=
  {| pkg_name := pkgName;
     pkg_main_field := pkg_main_field p;
     pkg_module := pkg_module p;
     pkg_jsnext_main := pkg_jsnext_main p;
     pkg_cjs_main := pkg_cjs_main p;
     pkg_umd_main := pkg_umd_main p;
     pkg_esmodule := pkg_esmodule p;
     pkg_syntax_esmodules := pkg_syntax_esmodules p;
     pkg_source := pkg_source p;
     pkg_peerDependencies := pkg_peerDependencies p;
     pkg_dependencies := pkg_dependencies p;
     pkg_minify := pkg_minify p;
     pkg_mangle := pkg_mangle p |}.

(** The options of the run, once entries and output are resolved. *)
Definition resolve_options (inputOptions : InputOptions) : Options :=
  let cwd := resolve [process_cwd env; in_cwd inputOptions] in
  let '(hasPackageJson, pkg) := getConfigFromPkgJson lib cwd in
  let '(finalName, pkgName) := getName lib (in_name inputOptions) pkg hasPackageJson cwd in
  let input :=
    getInput env (in_entries inputOptions) cwd (pkg_source pkg) (pkg_module pkg) in
  let output := getOutput env lib cwd (in_output inputOptions)
                  (pkg_main_field pkg) pkgName in
  {| cwd := cwd;
     pkg := set_pkg_name pkg pkgName;
     opt_pkg_main := in_pkg_main inputOptions;
     output := output;
     entries := getEntries env input cwd;
     name := finalName;
     multipleEntries := false;
     alias := in_alias inputOptions;
     external := in_external inputOptions;
     globals := in_globals inputOptions;
     sourcemap := in_sourcemap inputOptions;
     strict := in_strict inputOptions;
     compress := in_compress inputOptions;
     watch := in_watch inputOptions |}.

(** [microbundle(inputOptions)].  The list [steps] is empty when
    [doWatch] is called: the loop that filled it is commented out. *)
Definition microbundle (inputOptions : InputOptions) : Outcome :=
  let options := resolve_options inputOptions in
  let formats :=
    sorted_formats (in_format inputOptions) (in_formats inputOptions) in
  let steps : list Config := [] in
  if watch options then Watching (doWatch options (cwd options) steps)
  else match write_all options 0 formats with
       | Some out => Written out
       | None => Thrown
       end.

End Orchestrator.

(** ** A sample project

    A package [pkg] in [/p] with one source file [src/index.js], used
    to run the definitions above on concrete input. *)

Module Sample.

Definition files : list string := ["/p/src/index.js"].
Definition dirs : list string := ["/p"; "/p/src"].

Definition env : Env :=
  {| process_cwd := "/p";
     isFile := fun f => existsb (String.eqb f) files;
     isDir := fun d => existsb (String.eqb d) dirs;
     glob := fun f => if existsb (String.eqb f) files then [f] else [];
     readFileSync := fun _ => None;
     JSON_parse := fun _ => None |}.

Definition manifest : Pkg :=
  {| pkg_name := Some "pkg";
     pkg_main_field := Some "dist/pkg.js";
     pkg_module := Some "dist/pkg.module.js";
     pkg_jsnext_main := None;
     pkg_cjs_main := None;
     pkg_umd_main := None;
     pkg_esmodule := None;
     pkg_syntax_esmodules := None;
     pkg_source := SourceAbsent;
     pkg_peerDependencies := [];
     pkg_dependencies := ["lodash-es"];
     pkg_minify := None;
     pkg_mangle := None |}.

Definition lib : Lib :=
  {| removeScope := fun n => default "" n;
     parseAliasArgument := fun _ => [ {| find := "fs"; replacement := "./myfs" |} ];
     parseExternals := fun _ peers deps => map Literal (peers ++ deps);
     parseMappingArgument := fun _ => {[ "lodash-es" := "_" ]};
     normalizeMinifyOptions := fun o => o;
     getConfigFromPkgJson := fun _ => (true, manifest);
     getName := fun _ _ _ _ => ("pkg", Some "pkg") |}.

Definition inputOptions : InputOptions :=
  {| in_cwd := ".";
     in_entries := None;
     in_output := None;
     in_name := None;
     in_format := None;
     in_formats := "es,cjs";
     in_pkg_main := true;
     in_alias := Some "fs=./myfs";
     in_external := None;
     in_globals := Some "lodash-es=_";
     in_sourcemap := true;
     in_strict := false;
     in_compress := true;
     in_watch := false |}.

(** The options that [microbundle] resolves for this project. *)
Definition options : Options :=
  {| cwd := "/p";
     pkg := manifest;
     opt_pkg_main := true;
     output := "/p/dist/pkg.js";
     entries := ["/p/src/index.js"];
     name := "pkg";
     multipleEntries := false;
     alias := Some "fs=./myfs";
     external := None;
     globals := Some "lodash-es=_";
     sourcemap := true;
     strict := false;
     compress := true;
     watch := false |}.

(** The manifest with another [module] field. *)
Definition manifest_with_module (m : option string) : Pkg :=
  {| pkg_name := Some "pkg";
     pkg_main_field := Some "dist/pkg.js";
     pkg_module := m;
     pkg_jsnext_main := None;
     pkg_cjs_main := None;
     pkg_umd_main := None;
     pkg_esmodule := None;
     pkg_syntax_esmodules := None;
     pkg_source := SourceAbsent;
     pkg_peerDependencies := [];
     pkg_dependencies := ["lodash-es"];
     pkg_minify := None;
     pkg_mangle := None |}.

(** The resolved options with a given [pkg-main] option and manifest. *)
Definition options_with (pkgMain : bool) (p : Pkg) : Options :=
  {| cwd := "/p";
     pkg := p;
     opt_pkg_main := pkgMain;
     output := "/p/dist/pkg.js";
     entries := ["/p/src/index.js"];
     name := "pkg";
     multipleEntries := false;
     alias := None;
     external := None;
     globals := None;
     sourcemap := true;
     strict := false;
     compress := true;
     watch := false |}.

(** A project with a [src] directory that holds no [index] file, and
    an [index.js] at its root. *)
Definition env_root_index : Env :=
  {| process_cwd := "/p";
     isFile := fun f => existsb (String.eqb f) ["/p/index.js"; "/p/src/main.js"];
     isDir := fun d => existsb (String.eqb d) dirs;
     glob := fun f =>
       if existsb (String.eqb f) ["/p/index.js"; "/p/src/main.js"] then [f] else [];
     readFileSync := fun _ => None;
     JSON_parse := fun _ => None |}.

(** A project with no [src] directory and no [index] file, whose
    manifest names [lib/main.js] as its [module]. *)
Definition env_module_only : Env :=
  {| process_cwd := "/p";
     isFile := fun f => existsb (String.eqb f) ["/p/lib/main.js"];
     isDir := fun d => existsb (String.eqb d) ["/p"; "/p/lib"];
     glob := fun f =>
       if existsb (String.eqb f) ["/p/lib/main.js"; "lib/main.js"] then [f] else [];
     readFileSync := fun _ => None;
     JSON_parse := fun _ => None |}.

(** A Node script that loads a tool. *)
Definition script : string :=
  Shebang.node_directive +:+ String Shebang.newline "require('./tool')".

(** The tool: a module of the same build that begins with a directive
    of its own. *)
Definition tool : string :=
  "#!/usr/local/bin/node" +:+ String Shebang.newline "exports.run = 1".

(** A module of the same build with no directive. *)
Definition helper : string := "exports.help = 2".

(** An output of the build named [pkg]. *)
Definition pkg_output : OutputOptions :=
  {| o_paths := ∅;
     o_globals := None;
     o_strict := false;
     o_freeze := false;
     o_esModule := false;
     o_sourcemap := true;
     o_format := "cjs";
     o_name := "pkg";
     o_dir := "/p/dist";
     o_entryFileNames := "[name].js" |}.

(** The same project with a name-cache file that does not parse. *)
Definition env_bad_cache : Env :=
  {| process_cwd := "/p";
     isFile := fun f => existsb (String.eqb f) ("/p/mangle.json" :: files);
     isDir := fun d => existsb (String.eqb d) dirs;
     glob := fun f => if existsb (String.eqb f) files then [f] else [];
     readFileSync := fun f => if String.eqb f "/p/mangle.json" then Some "{" else None;
     JSON_parse := fun _ => None |}.

(** The same request in watch mode. *)
Definition watchOptions : InputOptions :=
  {| in_cwd := ".";
     in_entries := None;
     in_output := None;
     in_name := None;
     in_format := None;
     in_formats := "es,cjs";
     in_pkg_main := true;
     in_alias := None;
     in_external := None;
     in_globals := None;
     in_sourcemap := true;
     in_strict := false;
     in_compress := true;
     in_watch := true |}.

End Sample.

(** ** Auxiliary definitions for the properties of the code *)

(** What the external pattern asks after the matched specifier,
    [($|/)]: the end of the id, or a slash. *)
Definition boundary (rest : string) : bool :=
  Regex.rmatch (Regex.Alt Regex.Eos (Regex.Chr "/")) rest (fun _ => true).

(** An external list made of strings only. *)
Definition all_literal (external : list External) : Prop :=
  forall ext, In ext external -> exists s, ext = Literal s.

(** The watcher that [doWatch] creates for one step. *)
Definition watcher_of (step : Config) : Watcher :=
  {| w_input := c_input step;
     w_external := c_external step;
     w_output := c_outputOptions step;
     w_exclude := WATCH_OPTS_exclude |}.

(** A segment that [normalizeString] keeps in an absolute path: not
    empty, not [.], not [..], and without a slash. *)
Definition ordinary (seg : string) : bool :=
  negb (String.eqb seg "") && negb (String.eqb seg ".")
  && negb (String.eqb seg "..") && JsString.all JsString.not_slash seg.

(** ** The input map of [getConfigInput] *)





(** ** Auxiliary definitions for the exact form of a planned path *)

(** Every character that the pattern can consume satisfies [P] (a
    negated class can consume any character: [false]). *)
Fixpoint within (P : ascii -> bool) (r : Regex.regex) : bool :=
  match r with
  | Regex.Eps | Regex.Eos => true
  | Regex.Chr c => P c
  | Regex.OneOf l => forallb P l
  | Regex.NoneOf _ => false
  | Regex.Seq a b | Regex.Alt a b => within P a && within P b
  | Regex.Opt a | Regex.Star a => within P a
  end.

(** The absolute path of a list of segments, and the text of that path
    up to and including the slash before a further segment. *)
Definition abs_of (segs : list string) : string :=
  "/" +:+ JsString.join "/" segs.

Definition dir_prefix (init : list string) : string :=
  match init with
  | [] => "/"
  | _ => "/" +:+ JsString.join "/" init +:+ "/"
  end.

(** The template of a format, as [getMain] picks it. *)
Definition template_of (p : Pkg) (format : string) : string :=
  if String.eqb format "es" then es_template p
  else if String.eqb format "modern" then modern_template p
  else if String.eqb format "umd" then umd_template p
  else cjs_template p.

(** What [replaceName] keeps of a template: [basename(filename)] from
    its first dot on. *)
Definition template_suffix (template : string) : string :=
  JsString.dropWhile not_dot (Path.basename template).

(** The base name that [getMain] starts from: that of [options.output]
    for an index entry, that of the entry otherwise. *)
Definition planned_stem (options : Options) (entry : string) : string :=
  Regex.strip_suffix Patterns.tagged_ext
    (Path.basename
       (if Regex.test Patterns.index_entry entry then output options else entry)).

(** The file name that [getMain] plans for an entry and a format: the
    stem of the entry, then the suffix of the template of the format. *)
Definition planned_file (options : Options) (entry format : string) : string :=
  planned_stem options entry
    +:+ template_suffix (template_of (pkg options) format).

(** An entry and a format for which the plan is a path of the file
    system: the entry is an index file or has a base name that is a
    segment of a path, and so is the planned file name. *)
Definition plannable (options : Options) (entry format : string) : Prop :=
  (Regex.test Patterns.index_entry entry = true
   \/ ordinary (Path.basename entry) = true)
  /\ ordinary (planned_file options entry format) = true.

(** ** More sample runs *)

Module Sample2.

(** The sample project with two index files as entries. *)
Definition two_entries : Options :=
  {| cwd := "/p";
     pkg := Sample.manifest;
     opt_pkg_main := true;
     output := "/p/dist/pkg.js";
     entries := ["/p/src/index.js"; "/p/cli/index.ts"];
     name := "pkg";
     multipleEntries := false;
     alias := None;
     external := None;
     globals := None;
     sourcemap := true;
     strict := false;
     compress := true;
     watch := false |}.

(** A manifest whose templates for [cjs] and [umd] have the same
    suffix. *)
Definition manifest_same_suffix : Pkg :=
  {| pkg_name := Some "pkg";
     pkg_main_field := Some "dist/pkg.js";
     pkg_module := None;
     pkg_jsnext_main := None;
     pkg_cjs_main := Some "dist/node.js";
     pkg_umd_main := Some "dist/browser.js";
     pkg_esmodule := None;
     pkg_syntax_esmodules := None;
     pkg_source := SourceAbsent;
     pkg_peerDependencies := [];
     pkg_dependencies := [];
     pkg_minify := None;
     pkg_mangle := None |}.




End Sample2.

(* ===================================================================== *)
(** * Properties                                                          *)
(* ===================================================================== *)

(** ** Sample evaluations of the path and naming helpers *)

Example resolve_ex1 : Path.resolve "/p" ["/p"; "dist"] = "/p/dist".
Proof. reflexivity. Qed.
Example resolve_ex2 : Path.resolve "/p" ["dist"; "/p/dist/pkg.esm.js"] = "/p/dist/pkg.esm.js".
Proof. reflexivity. Qed.
Example resolve_ex3 : Path.resolve "/p" ["/a/b/"; "../c/./d"] = "/a/c/d".
Proof. reflexivity. Qed.
Example resolve_ex4 : Path.resolve "/p" ["."; "x.js"] = "/p/x.js".
Proof. reflexivity. Qed.
Example dirname_ex : (Path.dirname "x.esm.js", Path.dirname "/a/b", Path.dirname "/a", Path.dirname "a//b", Path.dirname "dist/foo.esm.js") = (".", "/a", "/", "a/", "dist").
Proof. reflexivity. Qed.
Example basename_ex : (Path.basename "/a/b.js", Path.basename "/a/b/", Path.basename "x", Path.basename "/") = ("b.js", "b", "x", "").
Proof. reflexivity. Qed.

Example camel_samples :
  map CamelCase.camelCase ["lodash-es"; "foo_bar"; "react"; "a-_$"; "a-$"; "x2y"; "_"; "__a"; "a--b-"; "a_-$b"]
  = ["lodashEs"; "fooBar"; "react"; "a_$"; "a-$"; "x2Y"; "_"; "a"; "aB"; "a_-$b"].
Proof. vm_compute. reflexivity. Qed.

(** The end-to-end example of the specification: manifest
    [{name: "pkg", main: "dist/pkg.js", module: "dist/pkg.module.js"}],
    entry [src/index.js]; the names planned for [cjs] and [es], and the
    order of the formats [es,cjs] after the sort. *)
Example end_to_end_names :
  getMain Sample.env Sample.options "/p/src/index.js" "cjs" = "/p/dist/pkg.js"
  /\ getMain Sample.env Sample.options "/p/src/index.js" "es" = "/p/dist/pkg.module.js"
  /\ sorted_formats None "es,cjs" = ["cjs"; "es"].
Proof. repeat split; reflexivity. Qed.

Example sorted_formats_sample :
  sorted_formats (Some "umd,es,cjs,modern") "" = ["cjs"; "umd"; "es"; "modern"].
Proof. reflexivity. Qed.

Example resolve_options_sample :
  resolve_options Sample.env Sample.lib Sample.inputOptions = Sample.options.
Proof. reflexivity. Qed.

(** ** The sort of the format list *)

Section SortFormats.
Import ArraySort.

Lemma compare_formats_cjs (b : string) : compare_formats "cjs" b = (-1)%Z.
Proof. reflexivity. Qed.

Lemma compare_formats_other (a b : string) :
  is_cjs a = false -> (0 <= compare_formats a b)%Z.
Proof.
  unfold compare_formats, is_cjs. intros ->.
  destruct (JsString.gt a b); lia.
Qed.

Lemma is_cjs_true (a : string) : is_cjs a = true -> a = "cjs".
Proof. unfold is_cjs. apply String.eqb_eq. Qed.

Lemma half_le (n : nat) : n / 2 <= n.
Proof. apply Nat.Div0.div_le_upper_bound. lia. Qed.

Lemma half_lt (n : nat) : 0 < n -> n / 2 < n.
Proof. intros H. apply Nat.div_lt; lia. Qed.

Section Search.
Context {A : Type} (comparefn : A -> A -> Z) (pivot : A) (sorted : list A).

(** A pivot that never compares below an element goes to the end. *)
Lemma search_never_below :
  (forall e, (0 <= comparefn pivot e)%Z) ->
  forall fuel left right,
    left <= right -> right <= length sorted -> right - left <= fuel ->
    search comparefn fuel pivot sorted left right = right.
Proof.
  intros Hge. induction fuel as [|fuel IH]; intros left right Hlr Hlen Hfuel.
  - cbn [search]. lia.
  - cbn [search]. destruct (left <? right)%nat eqn:Hlt.
    + apply Nat.ltb_lt in Hlt.
      pose proof (half_lt (right - left) ltac:(lia)) as Hhalf.
      destruct (lookup_lt_is_Some_2 sorted (left + (right - left) / 2)
                  ltac:(lia)) as [e He].
      rewrite He.
      destruct (Z.ltb_spec (comparefn pivot e) 0) as [Hneg|_].
      * specialize (Hge e). lia.
      * apply IH; lia.
    + apply Nat.ltb_ge in Hlt. lia.
Qed.

(** A pivot that compares below every element goes to the front. *)
Lemma search_always_below :
  (forall e, (comparefn pivot e < 0)%Z) ->
  forall fuel left right,
    left <= right -> right <= length sorted -> right - left <= fuel ->
    search comparefn fuel pivot sorted left right = left.
Proof.
  intros Hlt0. induction fuel as [|fuel IH]; intros left right Hlr Hlen Hfuel.
  - reflexivity.
  - cbn [search]. destruct (left <? right)%nat eqn:Hlt; [|reflexivity].
    apply Nat.ltb_lt in Hlt.
    pose proof (half_lt (right - left) ltac:(lia)) as Hhalf.
    destruct (lookup_lt_is_Some_2 sorted (left + (right - left) / 2)
                ltac:(lia)) as [e He].
    rewrite He.
    destruct (Z.ltb_spec (comparefn pivot e) 0) as [_|Hge].
    * apply IH; lia.
    * specialize (Hlt0 e). lia.
Qed.
End Search.

Lemma insert_pivot_cjs (sorted : list string) :
  insert_pivot compare_formats sorted "cjs" = "cjs" :: sorted.
Proof.
  unfold insert_pivot.
  rewrite search_always_below by (try lia; intros e; rewrite compare_formats_cjs; lia).
  reflexivity.
Qed.

Lemma insert_pivot_other (sorted : list string) (f : string) :
  is_cjs f = false -> insert_pivot compare_formats sorted f = (sorted ++ [f])%list.
Proof.
  intros Hf. unfold insert_pivot.
  rewrite search_never_below
    by (try lia; intros e; apply compare_formats_other, Hf).
  rewrite firstn_all, skipn_all. reflexivity.
Qed.

Lemma filter_cjs_repeat (l : list string) :
  List.filter is_cjs l = repeat "cjs" (length (List.filter is_cjs l)).
Proof.
  induction l as [|a l IH]; [reflexivity|]. simpl.
  destruct (is_cjs a) eqn:Ha; [|exact IH].
  apply is_cjs_true in Ha. subst a. simpl. f_equal. exact IH.
Qed.

Lemma cjs_commutes (l : list string) (rest : list string) :
  (List.filter is_cjs l ++ "cjs" :: rest = "cjs" :: List.filter is_cjs l ++ rest)%list.
Proof.
  rewrite filter_cjs_repeat. generalize (length (List.filter is_cjs l)) as n.
  induction n as [|n IH]; [reflexivity|]. simpl. f_equal. exact IH.
Qed.

Lemma fold_insert_pivot (remaining acc : list string) :
  fold_left (insert_pivot compare_formats) remaining acc
  = (List.filter is_cjs remaining ++ acc ++ List.filter not_cjs remaining)%list.
Proof.
  revert acc. induction remaining as [|a remaining IH]; intros acc.
  - simpl. rewrite app_nil_r. reflexivity.
  - simpl. unfold not_cjs at 1. destruct (is_cjs a) eqn:Ha; simpl.
    + apply is_cjs_true in Ha. subst a.
      rewrite insert_pivot_cjs, IH. apply cjs_commutes.
    + rewrite insert_pivot_other by exact Ha.
      rewrite IH, <- app_assoc. reflexivity.
Qed.

End SortFormats.

Section SortedFormats.
Import ArraySort.

Lemma filter_cjs_of_repeat (k : nat) :
  List.filter is_cjs (repeat "cjs" k) = repeat "cjs" k
  /\ List.filter not_cjs (repeat "cjs" k) = [].
Proof. induction k as [|k [IH1 IH2]]; simpl; [easy|]. rewrite IH1. easy. Qed.

Lemma cjs_first_app (run remaining : list string) :
  (List.filter is_cjs remaining ++ cjs_first run ++ List.filter not_cjs remaining)%list
  = cjs_first (run ++ remaining).
Proof.
  unfold cjs_first. rewrite !List.filter_app, <- !app_assoc.
  rewrite (filter_cjs_repeat remaining), (filter_cjs_repeat run).
  rewrite !app_assoc. do 2 f_equal.
  rewrite <- !repeat_app. f_equal. lia.
Qed.

Lemma extend_run_descending (l : list string) :
  forall prev, exists k remaining,
    extend_run compare_formats true prev l = (repeat "cjs" k, remaining)
    /\ l = (repeat "cjs" k ++ remaining)%list.
Proof.
  induction l as [|a l IH]; intros prev.
  - exists 0, []. easy.
  - cbn [extend_run]. destruct (is_cjs a) eqn:Ha.
    + apply is_cjs_true in Ha. subst a. rewrite compare_formats_cjs.
      destruct (IH "cjs") as (k & remaining & -> & Hl).
      exists (S k), remaining. simpl. split; [reflexivity | congruence].
    + pose proof (compare_formats_other a prev Ha) as Hge.
      apply Z.leb_le in Hge. rewrite Hge.
      exists 0, (a :: l). easy.
Qed.

Lemma extend_run_ascending (l : list string) :
  forall prev, exists run remaining,
    extend_run compare_formats false prev l = (run, remaining)
    /\ l = (run ++ remaining)%list
    /\ List.filter is_cjs run = []
    /\ List.filter not_cjs run = run.
Proof.
  induction l as [|a l IH]; intros prev.
  - exists [], []. easy.
  - cbn [extend_run]. destruct (is_cjs a) eqn:Ha.
    + apply is_cjs_true in Ha. subst a. rewrite compare_formats_cjs. simpl.
      exists [], ("cjs" :: l). easy.
    + pose proof (compare_formats_other a prev Ha) as Hge.
      destruct (Z.ltb_spec (compare_formats a prev) 0) as [Hlt|_]; [lia|].
      destruct (IH a) as (run & remaining & -> & Hl & Hc & Hn).
      exists (a :: run), remaining. simpl. unfold not_cjs at 1.
      rewrite Ha, Hc, Hn. simpl. split; [reflexivity|].
      split; [congruence | split; reflexivity].
Qed.

(** The sort moves every [cjs] to the front and leaves the other
    formats in the order of the request. *)
Lemma sort_formats_cjs_first (l : list string) :
  sort compare_formats l = cjs_first l.
Proof.
  destruct l as [|x0 [|x1 rest]].
  - reflexivity.
  - unfold sort, cjs_first. simpl. unfold not_cjs.
    destruct (is_cjs x0); reflexivity.
  - unfold sort, CountAndMakeRun. destruct (is_cjs x1) eqn:H1.
    + apply is_cjs_true in H1. subst x1. rewrite compare_formats_cjs.
      change ((-1 <? 0)%Z) with true.
      destruct (extend_run_descending rest "cjs") as (k & remaining & -> & ->).
      cbn iota. rewrite fold_insert_pivot.
      change (x0 :: "cjs" :: (repeat "cjs" k ++ remaining)%list)
        with ((x0 :: "cjs" :: repeat "cjs" k) ++ remaining)%list.
      rewrite <- (cjs_first_app (x0 :: "cjs" :: repeat "cjs" k)).
      do 2 f_equal.
      change ("cjs" :: repeat "cjs" k) with (repeat "cjs" (S k)).
      destruct (filter_cjs_of_repeat (S k)) as [F1 F2].
      unfold cjs_first. cbn [List.rev]. rewrite rev_repeat.
      cbn [List.filter].
      assert (N0 : not_cjs x0 = negb (is_cjs x0)) by reflexivity.
      rewrite N0.
      destruct (is_cjs x0) eqn:H0; cbn [negb]; rewrite F1, F2.
      * apply is_cjs_true in H0. subst x0.
        rewrite app_nil_r. symmetry. apply repeat_cons.
      * reflexivity.
    + pose proof (compare_formats_other x1 x0 H1) as Hge.
      destruct (Z.ltb_spec (compare_formats x1 x0) 0) as [Hlt|_]; [lia|].
      destruct (extend_run_ascending rest x1) as (run & remaining & -> & -> & Hc & Hn).
      cbn iota. rewrite fold_insert_pivot.
      change (x0 :: x1 :: (run ++ remaining)%list)
        with ((x0 :: x1 :: run) ++ remaining)%list.
      rewrite <- (cjs_first_app (x0 :: x1 :: run)).
      do 2 f_equal.
      unfold cjs_first. cbn [List.filter].
      assert (N1 : not_cjs x1 = true) by (unfold not_cjs; rewrite H1; reflexivity).
      assert (N0 : not_cjs x0 = negb (is_cjs x0)) by reflexivity.
      rewrite H1, N1, N0, Hc, Hn.
      destruct (is_cjs x0); reflexivity.
Qed.

End SortedFormats.

(** ** C2: the write order of the one-shot build *)

Section WriteOrder.
Variable env : Env.
Variable lib : Lib.

Lemma getConfigOutput_defined (options : Options) (format : string) (writeMeta : bool) :
  entries options <> [] \/ opt_pkg_main options = false ->
  exists o, getConfigOutput env options format writeMeta = Some o.
Proof.
  intros H. unfold getConfigOutput.
  destruct (entries options) as [|entry rest]; [|eauto].
  destruct H as [H|H]; [congruence|]. rewrite H. eauto.
Qed.

Lemma write_all_writes (options : Options) (formats : list string) :
  entries options <> [] \/ opt_pkg_main options = false ->
  forall i, exists out,
    write_all env options i formats = Some out /\ map fst out = formats.
Proof.
  intros H. induction formats as [|format rest IH]; intros i.
  - exists []. easy.
  - cbn [write_all].
    destruct (getConfigOutput_defined options format (i =? 0)%nat H) as [o ->].
    destruct (IH (S i)) as (out & -> & Hout).
    exists ((format, o) :: out). simpl. rewrite Hout. easy.
Qed.

Lemma cjs_first_order (l : list string) (i j : nat) (f : string) :
  cjs_first l !! i = Some f -> f <> "cjs" ->
  cjs_first l !! j = Some "cjs" -> j < i.
Proof.
  unfold cjs_first. intros Hi Hf Hj.
  destruct (Nat.lt_ge_cases i (length (List.filter is_cjs l))) as [Hlt|Hge].
  - rewrite lookup_app_l in Hi by exact Hlt.
    apply list_elem_of_lookup_2, list_elem_of_In, List.filter_In in Hi.
    destruct Hi as [_ Hi]. apply is_cjs_true in Hi. contradiction.
  - destruct (Nat.lt_ge_cases j (length (List.filter is_cjs l))) as [Hlt'|Hge'];
      [lia|].
    rewrite lookup_app_r in Hj by exact Hge'.
    apply list_elem_of_lookup_2, list_elem_of_In, List.filter_In in Hj.
    destruct Hj as [_ Hj]. discriminate Hj.
Qed.

Lemma cjs_first_head (l : list string) :
  In "cjs" l -> cjs_first l !! 0 = Some "cjs".
Proof.
  intros Hin. unfold cjs_first.
  assert (Hf : In "cjs" (List.filter is_cjs l))
    by (apply List.filter_In; split; [exact Hin | reflexivity]).
  rewrite (filter_cjs_repeat l) in Hf |- *.
  destruct (length (List.filter is_cjs l)); [destruct Hf | reflexivity].
Qed.

(** C2.  In a one-shot build over resolved options with an entry, when
    the requested formats include [cjs], the writes happen, one per
    requested format, the first one is the [cjs] output, and no write of
    another format comes before a write of [cjs], whatever the order of
    the request.  (The sort is the one V8 applies to an array shorter
    than 64 elements.) *)
Theorem C2_cjs_written_first (inputOptions : InputOptions) :
  let options := resolve_options env lib inputOptions in
  watch options = false ->
  entries options <> [] \/ opt_pkg_main options = false ->
  let formats :=
    requested_formats (in_format inputOptions) (in_formats inputOptions) in
  length formats < 64 ->
  In "cjs" formats ->
  exists out,
    microbundle env lib inputOptions = Written out
    /\ map fst out = cjs_first formats
    /\ map fst out !! 0 = Some "cjs"
    /\ forall i j f,
         map fst out !! i = Some f -> f <> "cjs" ->
         map fst out !! j = Some "cjs" -> j < i.
Proof.
  intros options Hwatch Hentry formats _ Hin.
  unfold microbundle. fold options. rewrite Hwatch. unfold sorted_formats.
  fold formats. rewrite sort_formats_cjs_first.
  destruct (write_all_writes options (cjs_first formats) Hentry 0)
    as (out & -> & Hout).
  exists out. rewrite Hout. split; [reflexivity|]. split; [reflexivity|].
  split; [apply cjs_first_head, Hin|].
  intros i j f. apply cjs_first_order.
Qed.

End WriteOrder.

Lemma C2_cjs_written_first_witness :
  exists out,
    microbundle Sample.env Sample.lib Sample.inputOptions = Written out
    /\ map fst out = cjs_first ["es"; "cjs"]
    /\ map fst out !! 0 = Some "cjs"
    /\ forall i j f,
         map fst out !! i = Some f -> f <> "cjs" ->
         map fst out !! j = Some "cjs" -> j < i.
Proof.
  apply (C2_cjs_written_first Sample.env Sample.lib Sample.inputOptions).
  - reflexivity.
  - left. discriminate.
  - vm_compute. lia.
  - vm_compute. auto.
Defined.

(** ** C3: the external predicate of a single literal *)

(** C3.  The external test compiled from the list [["foo"]] alone accepts
    [foo] and [foo/bar] and rejects [foobar] and [food]. *)
Theorem C3_external_foo :
  externalTest [Literal "foo"] "foo" = true
  /\ externalTest [Literal "foo"] "foo/bar" = true
  /\ externalTest [Literal "foo"] "foobar" = false
  /\ externalTest [Literal "foo"] "food" = false.
Proof. repeat split; reflexivity. Qed.

(** ** C10: aliases and the external classification *)

Section AliasPrecedence.
Variable env : Env.
Variable lib : Lib.

Lemma existsb_eqb_In (id : string) (l : list string) :
  In id l -> existsb (String.eqb id) l = true.
Proof.
  intros H. apply existsb_exists. exists id. split; [exact H|].
  apply String.eqb_refl.
Qed.

Lemma resolve_options_single (inputOptions : InputOptions) :
  multipleEntries (resolve_options env lib inputOptions) = false.
Proof.
  unfold resolve_options.
  destruct (getConfigFromPkgJson lib _) as [hasPackageJson p].
  destruct (getName lib _ _ _ _) as [finalName pkgName].
  reflexivity.
Qed.

Lemma external_fn_alias (options : Options) (external : list External) (id : string) :
  multipleEntries options = false ->
  In id (aliasIds lib options) ->
  external_fn lib options external id = false.
Proof.
  intros Hsingle Hin. unfold external_fn. rewrite Hsingle.
  destruct (String.eqb id async_helpers); [reflexivity|].
  cbn [andb]. rewrite (existsb_eqb_In _ _ Hin). reflexivity.
Qed.

(** C10.  In the configurations assembled from the options that
    [microbundle] resolves, the [external] function answers [false] for
    every find-key of the parsed aliases, whatever the external list
    holds: built-ins, entries, manifest dependencies, declared
    patterns. *)
Theorem C10_alias_never_external (inputOptions : InputOptions) (id : string) :
  let options := resolve_options env lib inputOptions in
  In id (aliasIds lib options) ->
  getConfigInput_external lib options id = false
  /\ forall entry format writeMeta,
       c_external (createConfig env lib options entry format writeMeta) id = false.
Proof.
  intros options Hin. pose proof (resolve_options_single inputOptions) as Hsingle.
  fold options in Hsingle.
  split.
  - apply external_fn_alias; assumption.
  - intros entry format writeMeta. unfold createConfig.
    destruct (createConfig_nameCache env lib options) as [nameCache minifyOptions].
    cbn [c_external]. apply external_fn_alias; assumption.
Qed.

End AliasPrecedence.

Lemma C10_alias_never_external_witness :
  externalTest (getConfigInput_externals Sample.lib Sample.options) "fs" = true
  /\ getConfigInput_external Sample.lib Sample.options "fs" = false
  /\ forall entry format writeMeta,
       c_external
         (createConfig Sample.env Sample.lib Sample.options entry format writeMeta)
         "fs" = false.
Proof.
  split; [reflexivity|].
  apply (C10_alias_never_external Sample.env Sample.lib Sample.inputOptions).
  vm_compute. auto.
Defined.

(** ** C9: a name cache that cannot be loaded *)

Section NameCacheFailure.
Variable env : Env.
Variable lib : Lib.

Lemma loadNameCache_failure (path : string) (st : NameCache.ref * json) :
  readFileSync env path = None
  \/ (exists text, readFileSync env path = Some text /\ JSON_parse env text = None) ->
  NameCache.loadNameCache env path st = st.
Proof.
  intros H. unfold NameCache.loadNameCache. destruct st as [nameCache minifyOptions].
  destruct H as [-> | (text & -> & ->)]; reflexivity.
Qed.

Lemma getNameCachePath_cases (pcwd cwd : string) (raw : json) :
  NameCache.getNameCachePath pcwd cwd raw
  = match raw with
    | JStr p => Path.resolve pcwd [cwd; p]
    | _ => Path.resolve pcwd [cwd; "mangle.json"]
    end.
Proof. reflexivity. Qed.

(** C9.  When the name-cache file ([mangle.json] in the working
    directory, or the path that a string-valued [minify] / [mangle]
    field names) cannot be read or does not parse, [createConfig]
    still returns its configuration: the name cache is [null], the
    minify options are those of the manifest, and the minifier, when
    there is one, is handed [null]. *)
Theorem C9_name_cache_load_failure (options : Options) :
  let raw := NameCache.rawMinifyValue (pkg options) in
  let path :=
    match raw with
    | JStr p => Path.resolve (process_cwd env) [cwd options; p]
    | _ => Path.resolve (process_cwd env) [cwd options; "mangle.json"]
    end in
  readFileSync env path = None
  \/ (exists text, readFileSync env path = Some text /\ JSON_parse env text = None) ->
  createConfig_nameCache env lib options
  = (JNull,
     normalizeMinifyOptions lib (if NameCache.is_string raw then JObj [] else raw))
  /\ forall entry format writeMeta,
       c_terser_nameCache (createConfig env lib options entry format writeMeta)
       = if compress options then Some JNull else None.
Proof.
  intros raw path H.
  assert (Hnc : createConfig_nameCache env lib options
                = (JNull,
                   normalizeMinifyOptions lib
                     (if NameCache.is_string raw then JObj [] else raw))).
  { unfold createConfig_nameCache. fold raw.
    rewrite getNameCachePath_cases. fold path.
    rewrite (loadNameCache_failure path _ H). reflexivity. }
  split; [exact Hnc|].
  intros entry format writeMeta. unfold createConfig. rewrite Hnc. reflexivity.
Qed.

End NameCacheFailure.

Lemma C9_name_cache_load_failure_witness :
  Sample.env_bad_cache.(readFileSync) "/p/mangle.json" = Some "{"
  /\ createConfig_nameCache Sample.env_bad_cache Sample.lib Sample.options
     = (JNull, JObj [])
  /\ forall entry format writeMeta,
       c_terser_nameCache
         (createConfig Sample.env_bad_cache Sample.lib Sample.options
            entry format writeMeta)
       = Some JNull.
Proof.
  split; [reflexivity|].
  apply (C9_name_cache_load_failure Sample.env_bad_cache Sample.lib Sample.options).
  right. exists "{". split; reflexivity.
Defined.

(** ** C8: the watchers of watch mode *)

(** What [doWatch] does with one step: one watcher under the key of the
    step's input, bound to its output options, with the exclusion of
    [WATCH_OPTS]. *)
Lemma doWatch_one_step (options : Options) (cwd : string) (step : Config) :
  doWatch options cwd [step] !! c_input step
  = Some {| w_input := c_input step;
            w_external := c_external step;
            w_output := c_outputOptions step;
            w_exclude := "node_modules/**" |}.
Proof. unfold doWatch. simpl. apply lookup_insert_eq. Qed.

Lemma microbundle_watch_no_watcher (env : Env) (lib : Lib)
    (inputOptions : InputOptions) :
  watch (resolve_options env lib inputOptions) = true ->
  microbundle env lib inputOptions = Watching ∅.
Proof. intros Hwatch. unfold microbundle. rewrite Hwatch. reflexivity. Qed.

(** C8.  The sample project has one resolved entry, and in watch mode
    [microbundle] returns a handle whose watcher set is empty: [doWatch]
    is handed the empty list of steps. *)
Theorem C8_watch_handle_is_empty :
  entries (resolve_options Sample.env Sample.lib Sample.watchOptions)
  = ["/p/src/index.js"]
  /\ microbundle Sample.env Sample.lib Sample.watchOptions = Watching ∅.
Proof. split; vm_compute; reflexivity. Qed.

(** ** C7: global names *)

Section Globals.
Variable env : Env.
Variable lib : Lib.

Lemma fold_add_global_lookup (external : list External) (name : string) :
  Regex.test_anchored Ident.global_name name = true ->
  name <> "__proto__" ->
  forall acc : gmap string string,
    acc !! name = Some (CamelCase.camelCase name)
    \/ (exists ext, In ext external /\ external_name ext = name) ->
    fold_left add_global external acc !! name = Some (CamelCase.camelCase name).
Proof.
  intros Hid Hproto. induction external as [|e external IH]; intros acc H.
  - destruct H as [H | (ext & [] & _)]. exact H.
  - cbn [fold_left]. apply IH.
    destruct (String.eqb_spec (external_name e) name) as [He|Hne].
    + left. unfold add_global. rewrite He, Hid.
      destruct (String.eqb_spec name "__proto__") as [Hp|_]; [contradiction|].
      apply lookup_insert_eq.
    + destruct H as [H | (ext & [Hin|Hin] & Hname)].
      * left. unfold add_global.
        destruct (Regex.test_anchored Ident.global_name (external_name e));
          [|exact H].
        destruct (String.eqb (external_name e) "__proto__"); [exact H|].
        rewrite lookup_insert_ne by exact Hne. exact H.
      * subst ext. contradiction.
      * right. exists ext. split; assumption.
Qed.

Lemma auto_globals_lodash_es (external : list External) :
  (exists ext, In ext external /\ external_name ext = "lodash-es") ->
  auto_globals external !! "lodash-es" = Some "lodashEs".
Proof.
  intros H. unfold auto_globals.
  change "lodashEs" with (CamelCase.camelCase "lodash-es").
  apply fold_add_global_lookup; [reflexivity | discriminate | right; exact H].
Qed.

(** C7.  When [lodash-es] is among the parsed externals, the globals of
    the configuration map it to [lodashEs] when no mapping is given
    ([options.globals] is absent, empty or [none]) and when the mapping
    parsed from [options.globals] has no such key; a mapping that has
    the key gives its own value in place of the derived one, and so
    does every key of the mapping. *)
Theorem C7_globals_derived_and_overridden
    (options : Options) (entry format : string) (writeMeta : bool) :
  In (Literal "lodash-es") (parsedExternals lib options) ->
  exists g,
    o_globals (c_outputOptions (createConfig env lib options entry format writeMeta))
    = Some g
    /\ g !! "lodash-es"
       = match globals options with
         | Some text =>
             if String.eqb text "" || String.eqb text "none"
             then Some "lodashEs"
             else
               match parseMappingArgument lib text !! "lodash-es" with
               | Some v => Some v
               | None => Some "lodashEs"
               end
         | None => Some "lodashEs"
         end
    /\ forall text k v,
         globals options = Some text ->
         text <> "" -> text <> "none" ->
         parseMappingArgument lib text !! k = Some v -> g !! k = Some v.
Proof.
  intros Hin.
  exists (createConfig_globals lib options (createConfig_externals lib options entry)).
  split.
  { unfold createConfig.
    destruct (createConfig_nameCache env lib options). reflexivity. }
  assert (Hauto : auto_globals (createConfig_externals lib options entry)
                    !! "lodash-es" = Some "lodashEs").
  { apply auto_globals_lodash_es. exists (Literal "lodash-es").
    split; [|reflexivity]. unfold createConfig_externals.
    apply in_or_app. right. apply in_or_app. right. exact Hin. }
  unfold createConfig_globals, user_globals.
  destruct (globals options) as [text|]; [|split; [exact Hauto | discriminate]].
  destruct (String.eqb_spec text "") as [->|Hne].
  { split; [exact Hauto|]. intros ? ? ? [= <-] Hc. contradiction. }
  assert (Ht : JsString.truthy text = true) by (destruct text; [contradiction | reflexivity]).
  rewrite Ht. cbn [orb andb].
  destruct (String.eqb_spec text "none") as [->|Hnn].
  { split; [exact Hauto|]. intros ? ? ? [= <-] _ Hc. contradiction. }
  cbn [negb]. split.
  - destruct (parseMappingArgument lib text !! "lodash-es") as [v|] eqn:Hm.
    + apply lookup_union_Some_l. exact Hm.
    + rewrite lookup_union_r by exact Hm. exact Hauto.
  - intros text' k v [= <-] _ _ Hk. apply lookup_union_Some_l. exact Hk.
Qed.

End Globals.

Lemma C7_globals_derived_and_overridden_witness :
  exists g,
    o_globals
      (c_outputOptions
         (createConfig Sample.env Sample.lib Sample.options "/p/src/index.js" "umd" true))
    = Some g
    /\ g !! "lodash-es" = Some "_"
    /\ forall text k v,
         globals Sample.options = Some text ->
         text <> "" -> text <> "none" ->
         parseMappingArgument Sample.lib text !! k = Some v -> g !! k = Some v.
Proof.
  apply (C7_globals_derived_and_overridden Sample.env Sample.lib Sample.options).
  vm_compute. auto.
Defined.

(** ** Strings and paths *)

Section StringFacts.
Import JsString.

Lemma append_cons (x : ascii) (a b : string) :
  String x a +:+ b = String x (a +:+ b).
Proof. reflexivity. Qed.

Lemma append_nil_l (b : string) : "" +:+ b = b.
Proof. reflexivity. Qed.

Lemma append_assoc (a b c : string) : (a +:+ b) +:+ c = a +:+ (b +:+ c).
Proof.
  induction a as [|x a IH]; [reflexivity|].
  rewrite !append_cons, IH. reflexivity.
Qed.

Lemma append_nil_r (a : string) : a +:+ "" = a.
Proof.
  induction a as [|x a IH]; [reflexivity|]. rewrite append_cons, IH. reflexivity.
Qed.

Lemma append_cancel_l (a b c : string) : a +:+ b = a +:+ c -> b = c.
Proof.
  induction a as [|x a IH]; [easy|]. rewrite !append_cons. intros [= H]. auto.
Qed.

Lemma append_length (a b : string) :
  String.length (a +:+ b) = String.length a + String.length b.
Proof.
  induction a as [|x a IH]; [reflexivity|].
  rewrite append_cons. simpl. rewrite IH. reflexivity.
Qed.

Lemma eqb_length_neq (a b : string) :
  String.length a <> String.length b -> String.eqb a b = false.
Proof. intros H. apply String.eqb_neq. intros ->. contradiction. Qed.

Lemma split_plain (s : string) :
  all not_slash s = true -> split "/" s = [s].
Proof.
  induction s as [|c s IH]; [reflexivity|]. cbn [all split].
  intros [Hc Hs]%andb_true_iff. unfold not_slash, is_slash in Hc.
  apply negb_true_iff in Hc. rewrite Hc, (IH Hs). reflexivity.
Qed.

(** Text without a slash that is appended to a path extends its last
    segment. *)
Lemma split_append_plain (m : string) :
  exists init last,
    forall s, all not_slash s = true ->
      split "/" (m +:+ s) = (init ++ [last +:+ s])%list.
Proof.
  induction m as [|c m (init & last & IH)].
  - exists [], "". intros s Hs. rewrite !append_nil_l. apply split_plain, Hs.
  - destruct (Ascii.eqb c "/") eqn:Hc.
    + exists ("" :: init), last. intros s Hs. rewrite append_cons. cbn [split].
      rewrite Hc, (IH s Hs). reflexivity.
    + destruct init as [|x init].
      * exists [], (String c last). intros s Hs. rewrite append_cons. cbn [split].
        rewrite Hc, (IH s Hs). reflexivity.
      * exists (String c x :: init), last. intros s Hs. rewrite append_cons.
        cbn [split]. rewrite Hc, (IH s Hs). reflexivity.
Qed.

Lemma startsWith_slash_append (m s : string) :
  all not_slash s = true ->
  startsWith "/" (m +:+ s) = startsWith "/" m.
Proof.
  intros Hs. destruct m as [|c m]; [|reflexivity]. rewrite append_nil_l.
  destruct s as [|x s]; [reflexivity|]. cbn [all] in Hs.
  apply andb_true_iff in Hs as [Hx _]. unfold not_slash, is_slash in Hx.
  apply negb_true_iff in Hx. cbn [startsWith].
  rewrite Ascii.eqb_sym, Hx. reflexivity.
Qed.

Lemma join_snoc (l : list string) :
  exists pre, forall y, join "/" (l ++ [y]) = pre +:+ y.
Proof.
  induction l as [|a l (pre & IH)].
  - exists "". reflexivity.
  - exists (a +:+ "/" +:+ pre). intros y.
    change ((a :: l) ++ [y])%list with (a :: (l ++ [y]))%list.
    cbn [join]. destruct (l ++ [y])%list eqn:E.
    + destruct l; discriminate E.
    + rewrite <- E, IH, !append_assoc. reflexivity.
Qed.

End StringFacts.

Section PathFacts.
Import JsString Path.

Lemma split_nonempty (sep : ascii) (s : string) : split sep s <> [].
Proof.
  destruct s as [|c s]; [easy|]. cbn [split].
  destruct (Ascii.eqb c sep); [easy|]. destruct (split sep s); easy.
Qed.

Lemma split_append_slash (x y : string) :
  split "/" (x +:+ "/" +:+ y) = (split "/" x ++ split "/" y)%list.
Proof.
  induction x as [|c x IH].
  - reflexivity.
  - rewrite append_cons. cbn [split]. rewrite IH.
    destruct (Ascii.eqb c "/"); [reflexivity|].
    pose proof (split_nonempty "/" x) as Hne.
    destruct (split "/" x); [contradiction | reflexivity].
Qed.

Lemma norm_step_ordinary (allow : bool) (stack : list string) (x : string) :
  3 <= String.length x -> norm_step allow stack x = x :: stack.
Proof.
  intros H. unfold norm_step.
  rewrite !eqb_length_neq by (simpl; lia). reflexivity.
Qed.

(** The loop of [resolve] only puts text in front of what it is given. *)
Lemma gather_acc (paths : list string) :
  exists P abs, forall acc, gather paths acc = (P +:+ acc, abs).
Proof.
  induction paths as [|p paths (P & abs & IH)].
  - exists "", false. reflexivity.
  - cbn [gather]. destruct (String.eqb p ""); [eauto|].
    destruct (startsWith "/" p).
    + exists (p +:+ "/"), true. intros acc. rewrite append_assoc. reflexivity.
    + exists (P +:+ p +:+ "/"), abs. intros acc.
      rewrite IH, !append_assoc. reflexivity.
Qed.

(** A plain suffix appended to the last argument of [resolve] comes out
    at the end of the result, and nothing else depends on it. *)
Lemma resolve_suffix (pcwd a m : string) :
  exists pre, forall s, plain_suffix s ->
    Path.resolve pcwd [a; m +:+ s] = pre +:+ s.
Proof.
  assert (Hg : exists P abs, forall s, plain_suffix s ->
            gather [m +:+ s; a; pcwd] "" = (P +:+ (m +:+ s) +:+ "/" +:+ "", abs)).
  { destruct (gather_acc [a; pcwd]) as (P & abs & HP).
    destruct (startsWith "/" m) eqn:Hm.
    - exists "", true. intros s [Hs Hlen]. cbn [gather].
      rewrite eqb_length_neq by (rewrite append_length; simpl; lia).
      rewrite (startsWith_slash_append m s Hs), Hm. reflexivity.
    - exists P, abs. intros s [Hs Hlen].
      change (gather [m +:+ s; a; pcwd] "")
        with (if String.eqb (m +:+ s) "" then gather [a; pcwd] ""
              else if startsWith "/" (m +:+ s)
                   then ((m +:+ s) +:+ "/" +:+ "", true)
                   else gather [a; pcwd] ((m +:+ s) +:+ "/" +:+ "")).
      rewrite eqb_length_neq by (rewrite append_length; simpl; lia).
      rewrite (startsWith_slash_append m s Hs), Hm. apply HP. }
  destruct Hg as (P & abs & Hg).
  destruct (split_append_plain (P +:+ m)) as (init & last & Hsplit).
  destruct (join_snoc (List.rev (fold_left (norm_step (negb abs)) init [])))
    as (pre & Hjoin).
  exists ((if abs then "/" else "") +:+ pre +:+ last).
  intros s Hs. pose proof Hs as [Hplain Hlen].
  unfold Path.resolve.
  change (List.rev [a; m +:+ s] ++ [pcwd])%list with [m +:+ s; a; pcwd].
  rewrite (Hg s Hs).
  assert (Hn : normalizeString (P +:+ (m +:+ s) +:+ "/" +:+ "") (negb abs)
               = pre +:+ last +:+ s).
  { unfold normalizeString, segments.
    rewrite <- !append_assoc, (append_assoc _ "/" ""), split_append_slash.
    rewrite (Hsplit s Hplain), <- app_assoc, fold_left_app.
    cbn [fold_left app split].
    rewrite (norm_step_ordinary _ _ (last +:+ s))
      by (rewrite append_length; lia).
    cbn [norm_step String.eqb orb List.rev].
    rewrite Hjoin, ?append_assoc. reflexivity. }
  rewrite Hn. destruct abs.
  - rewrite !append_assoc. reflexivity.
  - rewrite eqb_length_neq by (rewrite !append_length; simpl; lia).
    rewrite !append_nil_l, ?append_assoc. reflexivity.
Qed.

Lemma resolve_nonempty (pcwd : string) (args : list string) :
  JsString.truthy (Path.resolve pcwd args) = true.
Proof.
  unfold Path.resolve, truthy.
  destruct (gather _ _) as [resolvedPath [|]].
  - reflexivity.
  - destruct (String.eqb_spec (normalizeString resolvedPath (negb false)) "") as [E|E].
    + reflexivity.
    + apply negb_true_iff, String.eqb_neq. exact E.
Qed.

End PathFacts.

(** ** The output path planner *)

Section Planner.
Variable env : Env.

Lemma replaceName_truthy (filename name : string) :
  JsString.truthy (replaceName env filename name) = true.
Proof. apply resolve_nonempty. Qed.

(** With [pkg-main] on, each of the four formats is given the name that
    [replaceName] derives from the template of the format. *)
Lemma getMain_by_format (options : Options) (entry : string) :
  opt_pkg_main options = true ->
  let p := pkg options in
  let m := mainNoExtension env options entry in
  getMain env options entry "cjs" = replaceName env (cjs_template p) m
  /\ getMain env options entry "es" = replaceName env (es_template p) m
  /\ getMain env options entry "umd" = replaceName env (umd_template p) m
  /\ getMain env options entry "modern" = replaceName env (modern_template p) m.
Proof.
  intros Hpm p m. unfold getMain, mainsByFormat. rewrite Hpm. cbn [negb].
  fold p m. repeat split.
  - rewrite lookup_insert_ne, lookup_insert_eq by done.
    rewrite replaceName_truthy. reflexivity.
  - rewrite !lookup_insert_ne, lookup_insert_eq by done.
    rewrite replaceName_truthy. reflexivity.
  - rewrite lookup_insert_eq, replaceName_truthy. reflexivity.
  - rewrite !lookup_insert_ne, lookup_insert_eq by done.
    rewrite replaceName_truthy. reflexivity.
Qed.

Lemma getMain_pkg_main_off (options : Options) (entry format : string) :
  opt_pkg_main options = false ->
  getMain env options entry format = output options.
Proof. intros H. unfold getMain. rewrite H. reflexivity. Qed.

(** The names of the four default templates end in four different
    suffixes; the rest of each name is the same text. *)
Lemma default_names (name : string) :
  exists pre,
    replaceName env "x.js" name = pre +:+ ".js"
    /\ replaceName env "x.esm.js" name = pre +:+ ".esm.js"
    /\ replaceName env "x.umd.js" name = pre +:+ ".umd.js"
    /\ replaceName env "x.modern.js" name = pre +:+ ".modern.js".
Proof.
  destruct (resolve_suffix (process_cwd env) "." name) as (pre & Hpre).
  exists pre. repeat split;
    (etransitivity; [|apply Hpre; split; [reflexivity | simpl; lia]]);
    reflexivity.
Qed.

End Planner.

(** ** C6: the [module] field as the template of the [es] format *)

(** C6, as the code has it.  With the [pkg-main] option on: a [module]
    field that contains [src/] is not used, and the [es] name is derived
    from [jsnext:main] or from [x.esm.js]; a [module] field without
    [src/] is the template the [es] name is derived from. *)
Theorem C6_module_field_as_template
    (env : Env) (options : Options) (entry module : string) :
  opt_pkg_main options = true ->
  pkg_module (pkg options) = Some module ->
  JsString.truthy module = true ->
  let m := mainNoExtension env options entry in
  (JsString.includes "src/" module = true ->
     getMain env options entry "es"
     = replaceName env
         (JsString.or_else (pkg_jsnext_main (pkg options)) "x.esm.js") m)
  /\ (JsString.includes "src/" module = false ->
        getMain env options entry "es" = replaceName env module m).
Proof.
  intros Hpm Hmod Htruthy m.
  destruct (getMain_by_format env options entry Hpm) as (_ & Ges & _).
  fold m in Ges. rewrite Ges. unfold es_template. rewrite Hmod, Htruthy.
  split; intros ->; reflexivity.
Qed.

Lemma C6_module_field_as_template_witness :
  getMain Sample.env
    (Sample.options_with true (Sample.manifest_with_module (Some "src/index.js")))
    "/p/src/index.js" "es" = "/p/dist/pkg.esm.js"
  /\ getMain Sample.env
       (Sample.options_with true (Sample.manifest_with_module (Some "dist/foo.module.js")))
       "/p/src/index.js" "es" = "/p/dist/pkg.module.js".
Proof.
  split.
  - destruct (C6_module_field_as_template Sample.env
                (Sample.options_with true
                   (Sample.manifest_with_module (Some "src/index.js")))
                "/p/src/index.js" "src/index.js"
                eq_refl eq_refl eq_refl) as [Hsrc _].
    rewrite (Hsrc eq_refl). reflexivity.
  - destruct (C6_module_field_as_template Sample.env
                (Sample.options_with true
                   (Sample.manifest_with_module (Some "dist/foo.module.js")))
                "/p/src/index.js" "dist/foo.module.js"
                eq_refl eq_refl eq_refl) as [_ Hdist].
    rewrite (Hdist eq_refl). reflexivity.
Defined.

(** C6, as stated, fails: with the [pkg-main] option off, a [module]
    field outside [src/] is not the template of the [es] output, which is
    planned at [options.output]. *)
Lemma C6_counterexample :
  let options :=
    Sample.options_with false (Sample.manifest_with_module (Some "dist/foo.module.js")) in
  JsString.includes "src/" "dist/foo.module.js" = false
  /\ getMain Sample.env options "/p/src/index.js" "es" = "/p/dist/pkg.js"
  /\ replaceName Sample.env "dist/foo.module.js"
       (mainNoExtension Sample.env options "/p/src/index.js")
     = "/p/dist/pkg.module.js"
  /\ getMain Sample.env options "/p/src/index.js" "es"
     <> replaceName Sample.env "dist/foo.module.js"
          (mainNoExtension Sample.env options "/p/src/index.js").
Proof.
  intros options. split; [reflexivity|]. split; [reflexivity|].
  split; [reflexivity | discriminate].
Qed.

(** ** C4: the shebang across the transform and the banner *)

Section ShebangFacts.
Import JsString Shebang.

Lemma startsWith_append (p d rest : string) :
  startsWith p d = true -> startsWith p (d +:+ rest) = true.
Proof.
  revert d. induction p as [|a p IH]; intros d; [reflexivity|].
  destruct d as [|b d]; [discriminate|]. rewrite append_cons. cbn [startsWith].
  intros [-> Hp]%andb_true_iff. rewrite (IH d Hp). reflexivity.
Qed.

(** The text before the first character that fails [f]. *)
Lemma takeWhile_line (f : ascii -> bool) (d rest : string) :
  all f d = true ->
  rest = "" \/ (exists c r, rest = String c r /\ f c = false) ->
  takeWhile f (d +:+ rest) = d /\ dropWhile f (d +:+ rest) = rest.
Proof.
  intros Hd Hrest. induction d as [|x d IH].
  - rewrite append_nil_l.
    destruct Hrest as [-> | (c & r & -> & Hc)]; cbn [takeWhile dropWhile];
      [|rewrite Hc]; split; reflexivity.
  - cbn [all] in Hd. apply andb_true_iff in Hd as [Hx Hd].
    destruct (IH Hd) as [IH1 IH2].
    rewrite append_cons. cbn [takeWhile dropWhile]. rewrite Hx, IH1, IH2.
    split; reflexivity.
Qed.

Lemma transform_plain (name code : string) (shebang : Shebang.cache) :
  startsWith "#!" code = false -> transform name code shebang = (code, shebang).
Proof. intros H. unfold transform. rewrite H. reflexivity. Qed.

Lemma transform_modules_plain (name : string) (codes : list string)
    (shebang : Shebang.cache) :
  List.Forall (fun code => startsWith "#!" code = false) codes ->
  transform_modules name codes shebang = (codes, shebang).
Proof.
  induction 1 as [|code codes Hcode _ IH]; [reflexivity|].
  cbn [transform_modules]. rewrite (transform_plain _ _ _ Hcode), IH. reflexivity.
Qed.

Lemma ends_line_cases (rest : string) :
  rest = "" \/ (exists r, rest = String newline r) ->
  rest = "" \/ (exists c r, rest = String c r /\ not_newline c = false).
Proof. intros [-> | (r & ->)]; [left | right; exists newline, r]; easy. Qed.

(** C4, as the code has it.  For an entry whose first line is the
    directive [#!/usr/bin/env node], handed to the transform before the
    other modules of the build, none of which begins with [#!]: the
    banner of an output of that build, read from the cache after the
    last module, is the directive; the leading directive is cut out of
    the text of the entry (what stands in its place holds no [#!]), the
    rest of that text and the other modules go on as they are. *)
Theorem C4_shebang_round_trip
    (rest : string) (later : list string) (shebang : Shebang.cache)
    (o : OutputOptions) :
  rest = "" \/ (exists r, rest = String newline r) ->
  o_name o <> "__proto__" ->
  List.Forall (fun code => startsWith "#!" code = false) later ->
  let '(bodies, shebang') :=
    transform_modules (o_name o) ((node_directive +:+ rest) :: later) shebang in
  banner shebang' o = Own node_directive
  /\ exists filler,
       bodies = (filler +:+ rest) :: later
       /\ includes "#!" filler = false.
Proof.
  intros Hrest Hname Hlater. apply ends_line_cases in Hrest.
  destruct (takeWhile_line not_newline node_directive rest eq_refl Hrest)
    as [Htake Hdrop].
  cbn [transform_modules]. unfold transform.
  rewrite (startsWith_append "#!" node_directive rest eq_refl), Htake, Hdrop.
  rewrite (transform_modules_plain _ _ _ Hlater).
  split.
  - unfold banner. apply String.eqb_neq in Hname. rewrite Hname.
    rewrite lookup_insert_eq. reflexivity.
  - exists "undefined". split; reflexivity.
Qed.

End ShebangFacts.

Lemma C4_shebang_round_trip_witness :
  let '(bodies, shebang') :=
    Shebang.transform_modules "pkg" [Sample.script; Sample.helper] ∅ in
  banner shebang' Sample.pkg_output = Own "#!/usr/bin/env node"
  /\ exists filler,
       bodies = [filler +:+ String Shebang.newline "require('./tool')"; Sample.helper]
       /\ JsString.includes "#!" filler = false.
Proof.
  apply (C4_shebang_round_trip
           (String Shebang.newline "require('./tool')") [Sample.helper] ∅
           Sample.pkg_output).
  - right. eexists. reflexivity.
  - discriminate.
  - repeat constructor.
Defined.

(** C4, as stated, fails.  The hook is run on every module of the
    build and stores what it finds under the one name of the build: in
    a build whose entry begins with [#!/usr/bin/env node] and loads a
    module that begins with a directive of its own, the banner read
    afterwards is the directive of that module. *)
Lemma C4_counterexample :
  JsString.startsWith (Shebang.node_directive +:+ String Shebang.newline "")
    Sample.script = true
  /\ banner (snd (Shebang.transform_modules "pkg" [Sample.script; Sample.tool] ∅))
       Sample.pkg_output
     = Own "#!/usr/local/bin/node"
  /\ Own "#!/usr/local/bin/node" <> Own Shebang.node_directive.
Proof. split; [reflexivity|]. split; [reflexivity | discriminate]. Qed.

(** ** C5: entry resolution *)

Section EntryResolution.
Variable env : Env.

Lemma jsOrTs_truthy (cwd filename : string) :
  JsString.truthy (jsOrTs env cwd filename) = true.
Proof. apply resolve_nonempty. Qed.

(** The extension that [jsOrTs] picks: [.ts] when that file exists,
    else [.tsx] when that file exists, else [.js], whether or not a
    [.js] file exists. *)
Lemma jsOrTs_preference (cwd filename : string) :
  jsOrTs env cwd filename = index_by_preference env cwd filename.
Proof.
  unfold jsOrTs, index_by_preference.
  destruct (isFile env (resolve env [cwd; filename +:+ ".ts"])); [reflexivity|].
  destruct (isFile env (resolve env [cwd; filename +:+ ".tsx"])); reflexivity.
Qed.

Lemma fallback_candidate (cwd : string) (module : option string) :
  JsVal.or_
    (JsVal.and_ (JsVal.VBool (isDir env (resolve env [cwd; "src"])))
                (JsVal.VStr (jsOrTs env cwd "src/index")))
    (JsVal.or_ (JsVal.VStr (jsOrTs env cwd "index")) (JsVal.of_opt module))
  = JsVal.VStr (if isDir env (resolve env [cwd; "src"])
                then jsOrTs env cwd "src/index"
                else jsOrTs env cwd "index").
Proof.
  unfold JsVal.or_, JsVal.and_.
  destruct (isDir env (resolve env [cwd; "src"])); cbn [JsVal.truthy];
    rewrite jsOrTs_truthy; reflexivity.
Qed.

Lemma source_candidate (cwd : string) (source : source_field) (rest : JsVal.jsval) :
  JsVal.or_ (source_val env cwd source) rest
  = match source with
    | SourceMany files =>
        JsVal.VArr (map (fun file => resolve env [cwd; file]) files)
    | SourceOne file =>
        if JsString.truthy file then JsVal.VArr [resolve env [cwd; file]] else rest
    | SourceAbsent => rest
    end.
Proof.
  destruct source as [|file|files]; [reflexivity| |reflexivity].
  unfold source_val, JsVal.and_. cbn [JsVal.truthy].
  destruct (JsString.truthy file) eqn:Hf; [reflexivity|].
  unfold JsVal.or_. cbn [JsVal.truthy]. rewrite Hf. reflexivity.
Qed.

Lemma getInput_by_choice (entries : option (list string)) (cwd : string)
    (source : source_field) (module : option string) :
  getInput env entries cwd source module
  = flat_map (glob env) (getInput_choice env entries cwd source).
Proof.
  assert (Hrest :
            match JsVal.VStr (if isDir env (resolve env [cwd; "src"])
                              then jsOrTs env cwd "src/index"
                              else jsOrTs env cwd "index") with
            | JsVal.VArr files => flat_map (glob env) files
            | JsVal.VStr file => if JsString.truthy file then glob env file else []
            | _ => []
            end
            = flat_map (glob env)
                (if isDir env (resolve env [cwd; "src"])
                 then [jsOrTs env cwd "src/index"]
                 else [jsOrTs env cwd "index"])).
  { destruct (isDir env _); rewrite jsOrTs_truthy; cbn [flat_map];
      rewrite app_nil_r; reflexivity. }
  unfold getInput, getInput_candidate, getInput_choice.
  rewrite <- !jsOrTs_preference.
  destruct entries as [[|e es]|]; try reflexivity;
    rewrite source_candidate, fallback_candidate;
    (destruct source as [|file|files];
     [ exact Hrest
     | destruct (JsString.truthy file); [reflexivity | exact Hrest]
     | reflexivity ]).
Qed.

Lemma uniq_In (l : list string) :
  forall seen x, In x (uniq seen l) <-> In x l /\ ~ In x seen.
Proof.
  induction l as [|a l IH]; intros seen x; cbn [uniq].
  - simpl. tauto.
  - destruct (existsb (String.eqb a) seen) eqn:Hseen.
    + rewrite IH. apply existsb_exists in Hseen as (y & Hy & E).
      apply String.eqb_eq in E. subst y. simpl. split.
      * tauto.
      * intros [[<-|H] Hn]; [contradiction | tauto].
    + assert (Ha : ~ In a seen).
      { intros Hin. apply not_true_iff_false in Hseen. apply Hseen.
        apply existsb_exists. exists a. split; [exact Hin|]. apply String.eqb_refl. }
      cbn [In]. rewrite IH. cbn [In]. split.
      * intros [<-|[H Hn]]; [tauto|]. split; [tauto|]. tauto.
      * intros [[<-|H] Hn]; [tauto|].
        destruct (String.eqb_spec a x) as [E|E]; [tauto|]. right. tauto.
Qed.

Lemma uniq_NoDup (l : list string) : forall seen, NoDup (uniq seen l).
Proof.
  induction l as [|a l IH]; intros seen; cbn [uniq].
  - constructor.
  - destruct (existsb (String.eqb a) seen); [apply IH|].
    constructor; [|apply IH].
    rewrite list_elem_of_In, uniq_In. simpl. tauto.
Qed.

(** C5, as the code has it.  Wherever the [module] field is not the
    only thing left to ask, [getInput] expands through [glob] the
    explicit entries when there are some; else the [source] field(s) of
    the manifest, resolved against the working directory, when the
    field is set; else, when [src] is a directory, [src/index.ts] when
    that file exists, else [src/index.tsx] when that file exists, else
    [src/index.js]; else the root [index] by the same rule.
    [getEntries] resolves each file, replaces a directory by its
    [index.js], and keeps one copy of each path. *)
Theorem C5_entry_resolution (entries : option (list string)) (cwd : string)
    (source : source_field) (module : option string) (input : list string) :
  module_fallback_at_issue env entries cwd source module = false ->
  getInput env entries cwd source module
  = flat_map (glob env) (getInput_choice env entries cwd source)
  /\ (forall f, In f (getEntries env input cwd)
                <-> exists file, In file input /\ f = entry_of env cwd file)
  /\ NoDup (getEntries env input cwd).
Proof.
  intros _. split; [apply getInput_by_choice|]. split.
  - intros f. unfold getEntries. rewrite uniq_In, in_map_iff. cbn [app].
    split.
    + intros [(file & <- & Hin) _]. exists file. split; [exact Hin | reflexivity].
    + intros (file & Hin & ->). split; [|simpl; tauto].
      exists file. split; [reflexivity | exact Hin].
  - apply uniq_NoDup.
Qed.

End EntryResolution.

Lemma C5_entry_resolution_witness :
  getInput Sample.env None "/p" SourceAbsent (Some "dist/pkg.module.js")
  = ["/p/src/index.js"]
  /\ getEntries Sample.env ["src"; "/p/src/index.js"] "/p" = ["/p/src/index.js"].
Proof.
  destruct (C5_entry_resolution Sample.env None "/p" SourceAbsent
              (Some "dist/pkg.module.js") ["src"; "/p/src/index.js"] eq_refl)
    as (Hinput & _ & _).
  split; [rewrite Hinput|]; reflexivity.
Defined.

(** C5, as stated, fails.  In a project whose [src] directory holds no
    [index] file and whose root holds [index.js], the first candidate
    that is present is the root [index.js]; [getInput] picks
    [src/index.js], which [glob] does not find, and returns no input. *)
Lemma C5_counterexample :
  spec_getInput Sample.env_root_index None "/p" SourceAbsent None = ["/p/index.js"]
  /\ getInput Sample.env_root_index None "/p" SourceAbsent None = [].
Proof. split; reflexivity. Qed.

(** The [module] field is the last operand of the chain of [getInput],
    and the operand before it is never falsy: the result does not depend
    on the field. *)
Lemma getInput_ignores_module (env : Env) (entries : option (list string))
    (cwd : string) (source : source_field) (module module' : option string) :
  getInput env entries cwd source module = getInput env entries cwd source module'.
Proof. rewrite !getInput_by_choice. reflexivity. Qed.

Example getInput_module_only :
  spec_getInput Sample.env_module_only None "/p" SourceAbsent (Some "lib/main.js")
  = ["lib/main.js"]
  /\ getInput Sample.env_module_only None "/p" SourceAbsent (Some "lib/main.js")
     = [].
Proof. split; reflexivity. Qed.

(* ===================================================================== *)
(** * Further properties of the code                                      *)
(* ===================================================================== *)

(** ** The external test over literal specifiers *)

Section ExternalTest.
Import Regex.

Lemma rmatch_lit_append (s rest : string) (k : string -> bool) :
  rmatch (lit s) (s +:+ rest) k = k rest.
Proof.
  induction s as [|c s IH]; [reflexivity|].
  rewrite append_cons. cbn [lit rmatch]. rewrite Ascii.eqb_refl. exact IH.
Qed.

Lemma rmatch_lit_inv (s x : string) (k : string -> bool) :
  rmatch (lit s) x k = true -> exists rest, x = s +:+ rest /\ k rest = true.
Proof.
  revert x. induction s as [|c s IH]; intros x H.
  - exists x. split; [reflexivity | exact H].
  - cbn [lit rmatch] in H. destruct x as [|y x]; [discriminate|].
    apply andb_true_iff in H as [Hy H]. apply Ascii.eqb_eq in Hy. subst y.
    destruct (IH x H) as (rest & -> & Hk). exists rest. split; [reflexivity | exact Hk].
Qed.

Lemma rmatch_alternation (l : list regex) (x : string) (k : string -> bool) :
  l <> [] -> rmatch (alternation l) x k = existsb (fun r => rmatch r x k) l.
Proof.
  induction l as [|r l IH]; [congruence|]. intros _.
  destruct l as [|r' l].
  - cbn [alternation existsb]. rewrite orb_false_r. reflexivity.
  - change (alternation (r :: r' :: l)) with (Alt r (alternation (r' :: l))).
    cbn [rmatch]. rewrite IH by discriminate. reflexivity.
Qed.

Lemma boundary_cases (rest : string) :
  boundary rest = true <-> rest = "" \/ exists tail, rest = "/" +:+ tail.
Proof.
  unfold boundary. cbn [rmatch]. destruct rest as [|c rest].
  - split; [left; reflexivity | reflexivity].
  - cbn [orb]. rewrite andb_true_r. split.
    + intros H. apply Ascii.eqb_eq in H. subst c. right. exists rest. reflexivity.
    + intros [H | (tail & H)]; [discriminate|]. injection H as -> _.
      reflexivity.
Qed.

Lemma externalTest_unfold (external : list External) (id : string) :
  external <> [] ->
  externalTest external id
  = existsb (fun r => rmatch r id boundary) (map escapeStringExternals external).
Proof.
  intros Hne. unfold externalTest. destruct external as [|e external]; [congruence|].
  unfold test_anchored, externalPredicate. cbn [rmatch].
  rewrite rmatch_alternation by discriminate. reflexivity.
Qed.

End ExternalTest.

Section ExternalLiterals.
Import Regex.

Lemma externalTest_literal (external : list External) (s rest : string) :
  In (Literal s) external ->
  boundary rest = true ->
  externalTest external (s +:+ rest) = true.
Proof.
  intros Hin Hb.
  assert (Hne : external <> []) by (intros ->; destruct Hin).
  rewrite externalTest_unfold by exact Hne.
  apply existsb_exists. exists (lit s). split.
  - apply in_map_iff. exists (Literal s). split; [reflexivity | exact Hin].
  - rewrite rmatch_lit_append. exact Hb.
Qed.

(** X1.  A string in the external list makes external the id equal to
    it and every id that continues it after a slash, whatever else the
    list holds. *)
Theorem external_literal_and_subpaths (external : list External) (s : string) :
  In (Literal s) external ->
  externalTest external s = true
  /\ forall tail, externalTest external (s +:+ "/" +:+ tail) = true.
Proof.
  intros Hin. split.
  - rewrite <- (append_nil_r s). apply externalTest_literal; [exact Hin|].
    reflexivity.
  - intros tail. apply externalTest_literal; [exact Hin | reflexivity].
Qed.

(** X2.  When the external list holds strings only, an id is external
    only if it is one of the strings or continues one of them after a
    slash: a name is never matched by a longer name that merely starts
    with it. *)
Theorem external_literals_exact (external : list External) (id : string) :
  all_literal external ->
  externalTest external id = true ->
  exists s, In (Literal s) external
            /\ (id = s \/ exists tail, id = s +:+ "/" +:+ tail).
Proof.
  intros Hlit Htest.
  destruct external as [|e0 external0] eqn:E; [discriminate Htest|].
  rewrite <- E in *. assert (Hne : external <> []) by (rewrite E; discriminate).
  rewrite externalTest_unfold in Htest by exact Hne.
  apply existsb_exists in Htest as (r & Hr & Hm).
  apply in_map_iff in Hr as (ext & <- & Hext).
  destruct (Hlit ext Hext) as (s & ->). cbn [escapeStringExternals] in Hm.
  apply rmatch_lit_inv in Hm as (rest & -> & Hb).
  exists s. split; [exact Hext|].
  apply boundary_cases in Hb as [-> | (tail & ->)].
  - left. apply append_nil_r.
  - right. exists tail. reflexivity.
Qed.

End ExternalLiterals.

Lemma external_literal_and_subpaths_witness :
  externalTest [Literal "dns"; Literal "lodash"] "lodash" = true
  /\ forall tail, externalTest [Literal "dns"; Literal "lodash"]
                    ("lodash" +:+ "/" +:+ tail) = true.
Proof.
  apply (external_literal_and_subpaths [Literal "dns"; Literal "lodash"] "lodash").
  simpl. auto.
Defined.

Lemma external_literals_exact_witness :
  exists s, In (Literal s) [Literal "dns"; Literal "lodash"]
            /\ ("lodash/fp" = s \/ exists tail, "lodash/fp" = s +:+ "/" +:+ tail).
Proof.
  apply (external_literals_exact [Literal "dns"; Literal "lodash"] "lodash/fp").
  - intros ext [<-|[<-|[]]]; eauto.
  - reflexivity.
Defined.

(** ** What the two configurations treat as external *)

Section ExternalConfigs.
Variable env : Env.
Variable lib : Lib.

Lemma external_fn_listed (options : Options) (external : list External)
    (s id : string) :
  In (Literal s) external ->
  id = s \/ (exists tail, id = s +:+ "/" +:+ tail) ->
  id <> async_helpers ->
  ~ In id (aliasIds lib options) ->
  external_fn lib options external id = true.
Proof.
  intros Hin Hid Hhelper Halias. unfold external_fn.
  destruct (String.eqb_spec id async_helpers) as [E|_]; [contradiction|].
  destruct (multipleEntries options && String.eqb id "."); [reflexivity|].
  destruct (existsb (String.eqb id) (aliasIds lib options)) eqn:Hex.
  - apply existsb_exists in Hex as (a & Ha & E). apply String.eqb_eq in E.
    subst a. contradiction.
  - destruct Hid as [-> | (tail & ->)].
    + rewrite <- (append_nil_r s). apply externalTest_literal; [exact Hin|].
      reflexivity.
    + apply externalTest_literal; [exact Hin | reflexivity].
Qed.

(** X3.  For the bundle of [getConfigInput], the four built-ins, every
    entry of the build (the entry that is being bundled as well), and
    every id under one of them, are external, unless the id is the
    find-key of an alias or the async helper. *)
Theorem getConfigInput_builtins_and_entries_external
    (options : Options) (s id : string) :
  In s ["dns"; "fs"; "path"; "url"] \/ In s (entries options) ->
  id = s \/ (exists tail, id = s +:+ "/" +:+ tail) ->
  id <> async_helpers ->
  ~ In id (aliasIds lib options) ->
  getConfigInput_external lib options id = true.
Proof.
  intros Hs. apply external_fn_listed. unfold getConfigInput_externals.
  apply in_or_app. destruct Hs as [Hs|Hs].
  - left. unfold builtins. cbn [In] in Hs |- *.
    destruct Hs as [<-|[<-|[<-|[<-|[]]]]]; auto.
  - right. apply in_or_app. left. apply in_map. exact Hs.
Qed.

(** X4.  For the configuration that [createConfig] builds for one entry,
    every other entry of the build is external, and so is every id under
    it, unless the id is the find-key of an alias or the async helper:
    entries do not bundle one another. *)
Theorem createConfig_other_entries_external
    (options : Options) (entry format : string) (writeMeta : bool)
    (other id : string) :
  In other (entries options) ->
  other <> entry ->
  id = other \/ (exists tail, id = other +:+ "/" +:+ tail) ->
  id <> async_helpers ->
  ~ In id (aliasIds lib options) ->
  c_external (createConfig env lib options entry format writeMeta) id = true.
Proof.
  intros Hin Hne Hid Hhelper Halias. unfold createConfig.
  destruct (createConfig_nameCache env lib options) as [nameCache minifyOptions].
  cbn [c_external]. apply (external_fn_listed options _ other); try assumption.
  unfold createConfig_externals. apply in_or_app. right. apply in_or_app. left.
  apply in_map, List.filter_In. split; [exact Hin|].
  apply negb_true_iff, String.eqb_neq. exact Hne.
Qed.

End ExternalConfigs.

Lemma getConfigInput_builtins_and_entries_external_witness :
  getConfigInput_external Sample.lib Sample.options "/p/src/index.js" = true.
Proof.
  apply (getConfigInput_builtins_and_entries_external Sample.lib Sample.options
           "/p/src/index.js" "/p/src/index.js").
  - right. simpl. auto.
  - left. reflexivity.
  - discriminate.
  - simpl. intros [H|[]]. discriminate H.
Defined.

(** ** The derived global names *)

Section DerivedGlobals.
Import Regex.

Lemma fold_add_global_sound (l : list External) :
  forall (acc : gmap string string) (k v : string),
    fold_left add_global l acc !! k = Some v ->
    acc !! k = Some v
    \/ (exists ext, In ext l /\ external_name ext = k
                    /\ test_anchored Ident.global_name k = true
                    /\ v = CamelCase.camelCase k).
Proof.
  induction l as [|e l IH]; intros acc k v H.
  - left. exact H.
  - cbn [fold_left] in H. apply IH in H as [H | (ext & Hin & Hrest)].
    + unfold add_global in H.
      destruct (test_anchored Ident.global_name (external_name e)) eqn:Ht;
        [destruct (String.eqb (external_name e) "__proto__"); [left; exact H|]|].
      * destruct (String.eqb_spec (external_name e) k) as [E|E].
        -- subst k. rewrite lookup_insert_eq in H. injection H as <-.
           right. exists e. split; [left; reflexivity|]. auto.
        -- rewrite lookup_insert_ne in H by exact E. left. exact H.
      * left. exact H.
    + right. exists ext. split; [right; exact Hin | exact Hrest].
Qed.

Lemma global_name_first_char (c : ascii) (t : string) :
  mem c (Patterns.lower ++ ["_"; "$"]%char) = false ->
  test_anchored Ident.global_name (String c t) = false.
Proof.
  intros H. unfold test_anchored, Ident.global_name. cbn [rmatch].
  rewrite H. reflexivity.
Qed.

(** X5.  Every key of the derived globals is the name of an external of
    the list that has the shape [/^[a-z_$][a-z0-9_\-$]*$/], and its value
    is the camel-cased name; a name that begins with a character outside
    [a-z_$] (an absolute path, a scoped package [@scope/name]) gets no
    derived global. *)
Theorem auto_globals_sound (external : list External) :
  (forall k v,
     auto_globals external !! k = Some v ->
     exists ext, In ext external /\ external_name ext = k
                 /\ test_anchored Ident.global_name k = true
                 /\ v = CamelCase.camelCase k)
  /\ (forall c t,
        mem c (Patterns.lower ++ ["_"; "$"]%char) = false ->
        auto_globals external !! String c t = None).
Proof.
  assert (Hsound : forall k v,
            auto_globals external !! k = Some v ->
            exists ext, In ext external /\ external_name ext = k
                        /\ test_anchored Ident.global_name k = true
                        /\ v = CamelCase.camelCase k).
  { intros k v H. apply fold_add_global_sound in H as [H|H]; [|exact H].
    rewrite lookup_empty in H. discriminate H. }
  split; [exact Hsound|].
  intros c t Hc. destruct (auto_globals external !! String c t) as [v|] eqn:E;
    [|reflexivity].
  destruct (Hsound _ _ E) as (ext & _ & _ & Ht & _).
  rewrite (global_name_first_char c t Hc) in Ht. discriminate Ht.
Qed.

Lemma auto_globals_absolute (external : list External) (t : string) :
  auto_globals external !! String "/" t = None.
Proof.
  destruct (auto_globals external !! String "/" t) as [v|] eqn:E; [|reflexivity].
  apply fold_add_global_sound in E as [E | (ext & _ & _ & Ht & _)].
  - rewrite lookup_empty in E. discriminate E.
  - rewrite (global_name_first_char "/" t eq_refl) in Ht. discriminate Ht.
Qed.

End DerivedGlobals.

(** X6.  The globals of a configuration, key by key: the value of the
    caller's mapping when the [globals] option is a mapping with that
    key, the derived value otherwise; the option value [none] is not
    parsed and leaves the derived globals as they are. *)
Theorem createConfig_globals_lookup (lib : Lib) (options : Options)
    (external : list External) (k : string) :
  createConfig_globals lib options external !! k
  = match globals options with
    | Some g =>
        if String.eqb g "" || String.eqb g "none"
        then auto_globals external !! k
        else match parseMappingArgument lib g !! k with
             | Some v => Some v
             | None => auto_globals external !! k
             end
    | None => auto_globals external !! k
    end.
Proof.
  unfold createConfig_globals, user_globals, JsString.truthy.
  destruct (globals options) as [g|]; [|reflexivity].
  destruct (String.eqb g ""); [reflexivity|]. cbn [negb andb orb].
  destruct (String.eqb g "none"); [reflexivity|]. cbn [negb].
  destruct (parseMappingArgument lib g !! k) as [v|] eqn:E.
  - apply lookup_union_Some_l. exact E.
  - apply lookup_union_r. exact E.
Qed.

(** ** Names made of lower-case letters *)

Section LowerCaseNames.
Import Regex CamelCase.

Lemma is_lower_facts (c : ascii) :
  is_lower c = true ->
  is_sep c = false /\ is_upper c = false /\ is_digit c = false
  /\ mem c Patterns.lower = true.
Proof.
  intros H.
  assert (Hc : In c (list_ascii_of_string "abcdefghijklmnopqrstuvwxyz")).
  { unfold is_lower in H. apply andb_true_iff in H as [H1 H2].
    apply Nat.leb_le in H1, H2.
    rewrite <- (ascii_nat_embedding c).
    remember (nat_of_ascii c) as n eqn:En. clear En c.
    do 97 (destruct n as [|n]; [lia|]).
    do 26 (destruct n as [|n]; [cbn; tauto|]). lia. }
  cbn [list_ascii_of_string In] in Hc.
  repeat (destruct Hc as [<-|Hc]; [repeat split; reflexivity|]).
  destruct Hc.
Qed.

Lemma lowercase_id (s : string) :
  JsString.all is_lower s = true -> lowercase s = s.
Proof.
  induction s as [|c s IH]; [reflexivity|]. cbn [JsString.all lowercase].
  intros [Hc Hs]%andb_true_iff. destruct (is_lower_facts c Hc) as (_ & Hu & _).
  unfold toLowerCase. rewrite Hu, (IH Hs). reflexivity.
Qed.

Lemma join_words_id (s : string) :
  JsString.all is_lower s = true -> join_words "" s = s.
Proof.
  induction s as [|c s IH]; [reflexivity|]. cbn [JsString.all join_words].
  intros [Hc Hs]%andb_true_iff. destruct (is_lower_facts c Hc) as (Hsep & _).
  rewrite Hsep, (IH Hs). reflexivity.
Qed.

Lemma raise_after_digits_id (s : string) :
  JsString.all is_lower s = true -> raise_after_digits false s = s.
Proof.
  induction s as [|c s IH]; [reflexivity|]. cbn [JsString.all raise_after_digits].
  intros [Hc Hs]%andb_true_iff. destruct (is_lower_facts c Hc) as (_ & _ & Hd & _).
  rewrite Hd, (IH Hs). reflexivity.
Qed.

Lemma camelCase_lower_id (s : string) :
  JsString.all is_lower s = true -> camelCase s = s.
Proof.
  intros H. destruct s as [|c s]; [reflexivity|].
  pose proof H as H'. cbn [JsString.all] in H'.
  apply andb_true_iff in H' as [Hc Hs].
  destruct (is_lower_facts c Hc) as (Hsep & Hu & _).
  unfold camelCase. destruct s as [|d s].
  - unfold toLowerCase. rewrite Hu. reflexivity.
  - cbn [JsString.dropWhile]. rewrite Hsep.
    rewrite (lowercase_id _ H), (join_words_id _ H). apply raise_after_digits_id, H.
Qed.

End LowerCaseNames.

Section LowerCaseGlobals.
Import Regex CamelCase.

(** A class under a star, up to the end of the text. *)
Lemma rmatch_star_class (L : list ascii) (s : string) :
  JsString.all (fun c => mem c L) s = true ->
  rmatch (Seq (Star (OneOf L)) Eos) s (fun _ => true) = true.
Proof.
  intros Hall. cbn [rmatch].
  assert (Hloop : forall n s,
            String.length s <= n ->
            JsString.all (fun c => mem c L) s = true ->
            (fix loop (n : nat) (s : string) {struct n} : bool :=
               match n with
               | 0 => match s with "" => true | String _ _ => false end
               | S n' =>
                   match s with
                   | "" => false
                   | String x t =>
                       mem x L
                       && ((String.length t <? String.length s)%nat && loop n' t)
                   end
                   || match s with "" => true | String _ _ => false end
               end) n s = true).
  { clear s Hall. induction n as [|n IH]; intros s Hlen Hs.
    - destruct s; [reflexivity | simpl in Hlen; lia].
    - destruct s as [|x t]; [reflexivity|].
      cbn [JsString.all] in Hs. apply andb_true_iff in Hs as [Hx Ht].
      rewrite Hx. cbn [andb].
      assert (Hlt : (String.length t <? String.length (String x t))%nat = true)
        by (apply Nat.ltb_lt; simpl; lia).
      rewrite Hlt. cbn [andb]. rewrite IH; [reflexivity | simpl in Hlen; lia | exact Ht]. }
  apply Hloop; [lia | exact Hall].
Qed.

Lemma mem_app_l (c : ascii) (l1 l2 : list ascii) :
  mem c l1 = true -> mem c (l1 ++ l2) = true.
Proof. unfold mem. rewrite existsb_app. intros ->. reflexivity. Qed.

Lemma global_name_lower (s : string) :
  s <> "" -> JsString.all is_lower s = true ->
  test_anchored Ident.global_name s = true.
Proof.
  intros Hne Hall. destruct s as [|c s]; [congruence|].
  cbn [JsString.all] in Hall. apply andb_true_iff in Hall as [Hc Hs].
  destruct (is_lower_facts c Hc) as (_ & _ & _ & Hm).
  unfold test_anchored, Ident.global_name.
  change (rmatch (Seq (OneOf (Patterns.lower ++ ["_"; "$"]%char))
                    (Seq (Star (OneOf (Patterns.lower ++ Ident.digits
                                         ++ ["_"; "-"; "$"]%char))) Eos))
            (String c s) (fun _ => true))
    with (mem c (Patterns.lower ++ ["_"; "$"]%char)
          && rmatch (Seq (Star (OneOf (Patterns.lower ++ Ident.digits
                                         ++ ["_"; "-"; "$"]%char))) Eos)
               s (fun _ => true)).
  rewrite (mem_app_l _ _ _ Hm). cbn [andb].
  apply rmatch_star_class.
  clear c Hc Hm Hne. induction s as [|c s IH]; [reflexivity|].
  cbn [JsString.all] in Hs |- *. apply andb_true_iff in Hs as [Hc Hs].
  destruct (is_lower_facts c Hc) as (_ & _ & _ & Hm).
  rewrite (mem_app_l _ _ _ Hm), (IH Hs). reflexivity.
Qed.

(** X7.  An external whose name is made of lower-case letters only
    ([fs], [react]) is given its own name as derived global. *)
Theorem auto_globals_lower_case_name (external : list External) (s : string) :
  s <> "" ->
  JsString.all is_lower s = true ->
  (exists ext, In ext external /\ external_name ext = s) ->
  auto_globals external !! s = Some s.
Proof.
  intros Hne Hall Hin. unfold auto_globals.
  transitivity (Some (camelCase s)); [|f_equal; apply camelCase_lower_id, Hall].
  apply fold_add_global_lookup;
    [ apply global_name_lower; assumption
    | intros ->; discriminate
    | right; exact Hin ].
Qed.

End LowerCaseGlobals.

Lemma auto_globals_lower_case_name_witness :
  auto_globals (createConfig_externals Sample.lib Sample.options "/p/src/index.js")
    !! "path" = Some "path".
Proof.
  apply (auto_globals_lower_case_name
           (createConfig_externals Sample.lib Sample.options "/p/src/index.js") "path").
  - discriminate.
  - reflexivity.
  - exists (Literal "path"). split; [simpl; auto | reflexivity].
Defined.

(** ** The name cache that loads *)

Section NameCacheLoaded.
Import NameCache.











Variable env : Env.
Variable lib : Lib.


End NameCacheLoaded.

(** ** The watchers of [doWatch] *)

(** X9.  The handle of [doWatch] has one watcher per distinct input of
    the steps: under the key of an input it holds the watcher of the last
    step with that input (an earlier step with the same input has no
    watcher left in the handle), bound to that step's output options and
    with the exclusion [node_modules/**]; it has no other key. *)
Theorem doWatch_lookup (options : Options) (cwd : string) (steps : list Config)
    (k : string) :
  doWatch options cwd steps !! k
  = option_map watcher_of
      (List.find (fun step => String.eqb (c_input step) k) (List.rev steps)).
Proof.
  unfold doWatch. induction steps as [|step steps IH] using rev_ind.
  - cbn. apply lookup_empty.
  - rewrite fold_left_app, rev_app_distr. cbn [fold_left List.rev app List.find].
    destruct (String.eqb_spec (c_input step) k) as [E|Hk].
    + rewrite <- E, lookup_insert_eq. reflexivity.
    + rewrite lookup_insert_ne by exact Hk. exact IH.
Qed.

(** ** The shebang transform *)

Section TransformFacts.
Import JsString Shebang.

Lemma takeWhile_dropWhile (f : ascii -> bool) (s : string) :
  takeWhile f s +:+ dropWhile f s = s
  /\ all f (takeWhile f s) = true
  /\ (dropWhile f s = "" \/ exists c r, dropWhile f s = String c r /\ f c = false).
Proof.
  induction s as [|c s (IH1 & IH2 & IH3)].
  - repeat split; left; reflexivity.
  - cbn [takeWhile dropWhile]. destruct (f c) eqn:Hc.
    + rewrite append_cons, IH1. cbn [all]. rewrite Hc, IH2. repeat split. exact IH3.
    + repeat split. right. exists c, s. split; [reflexivity | exact Hc].
Qed.

(** X10.  The transform of a module that begins with [#!] cuts the text
    at the first line feed: the text before it is stored under the
    build name, the text from it on is kept behind the word
    [undefined]; stored text and kept text together are the source.  A
    module that does not begin with [#!] is left as it is, and so is the
    cache. *)
Theorem transform_cuts_first_line (name code : string) (shebang : Shebang.cache) :
  if startsWith "#!" code then
    exists bang rest,
      transform name code shebang = ("undefined" +:+ rest, <[name := bang]> shebang)
      /\ code = bang +:+ rest
      /\ all not_newline bang = true
      /\ (rest = "" \/ exists r, rest = String newline r)
  else transform name code shebang = (code, shebang).
Proof.
  unfold transform. destruct (startsWith "#!" code); [|reflexivity].
  destruct (takeWhile_dropWhile not_newline code) as (H1 & H2 & H3).
  exists (takeWhile not_newline code), (dropWhile not_newline code).
  split; [reflexivity|]. split; [symmetry; exact H1|]. split; [exact H2|].
  destruct H3 as [H3 | (c & r & H3 & Hc)]; [left; exact H3|].
  right. exists r. rewrite H3. f_equal.
  unfold not_newline in Hc. apply negb_false_iff, Ascii.eqb_eq in Hc. exact Hc.
Qed.

(** X11.  The cache is keyed by build name only: a transform never
    changes the entry of another build, and under its own name the
    directive of a later module that begins with [#!] takes the place of
    the one stored before, whichever module it came from. *)
Theorem transform_cache_by_name (name code : string) (shebang : Shebang.cache) :
  (forall other, other <> name ->
     snd (transform name code shebang) !! other = shebang !! other)
  /\ (forall later,
        startsWith "#!" later = true ->
        snd (transform name later (snd (transform name code shebang))) !! name
        = Some (first_line later)).
Proof.
  split.
  - intros other Hne. unfold transform. destruct (startsWith "#!" code); [|reflexivity].
    cbn [snd]. apply lookup_insert_ne. congruence.
  - intros later Hlater. unfold transform at 1. rewrite Hlater. cbn [snd].
    apply lookup_insert_eq.
Qed.

End TransformFacts.

(** ** Splitting and joining *)

Section SplitJoin.
Import JsString.

Lemma join_cons_char (sep : string) (c : ascii) (x : string) (r : list string) :
  join sep (String c x :: r) = String c (join sep (x :: r)).
Proof. destruct r; reflexivity. Qed.

(** [split] and [join] on one separator: joining the pieces gives the
    text back, there is always at least one piece, and no piece holds
    the separator. *)
Lemma split_join (sep : ascii) (s : string) :
  join (String sep "") (split sep s) = s
  /\ split sep s <> []
  /\ Forall (fun piece => all (fun c => negb (Ascii.eqb c sep)) piece = true)
       (split sep s).
Proof.
  split; [|split; [apply split_nonempty|]].
  - induction s as [|c s IH]; [reflexivity|]. cbn [split].
    pose proof (split_nonempty sep s) as Hne.
    destruct (Ascii.eqb_spec c sep) as [->|Hc].
    + destruct (split sep s) as [|x r]; [contradiction|].
      change (join (String sep "") ("" :: x :: r))
        with ("" +:+ String sep "" +:+ join (String sep "") (x :: r)).
      rewrite IH. reflexivity.
    + destruct (split sep s) as [|x r]; [contradiction|].
      rewrite join_cons_char, IH. reflexivity.
  - induction s as [|c s IH]; [repeat constructor|]. cbn [split].
    destruct (Ascii.eqb c sep) eqn:Hc.
    + constructor; [reflexivity | exact IH].
    + destruct (split sep s) as [|x r]; [repeat constructor; cbn; rewrite Hc; reflexivity|].
      inversion IH as [|? ? Hx Hr]; subst. constructor; [|exact Hr].
      cbn [all]. rewrite Hc, Hx. reflexivity.
Qed.

End SplitJoin.

(** ** The resolved output path *)

Section OutputPath.
Variable env : Env.
Variable lib : Lib.

Lemma test_append (r : Regex.regex) (p t : string) :
  Regex.test_anchored r t = true -> Regex.test r (p +:+ t) = true.
Proof.
  intros H. induction p as [|c p IH].
  - rewrite append_nil_l. destruct t; cbn [Regex.test]; rewrite H; reflexivity.
  - rewrite append_cons. cbn [Regex.test]. rewrite IH. apply orb_true_r.
Qed.

Lemma getOutput_ends_in_ext (cwd : string) (output pkgMain pkgName : option string) :
  Regex.test Patterns.has_ext (getOutput env lib cwd output pkgMain pkgName) = true.
Proof.
  unfold getOutput.
  set (main := Path.resolve (process_cwd env)
                 [cwd; JsString.or_else output (JsString.or_else pkgMain "dist")]).
  destruct (Regex.test Patterns.has_ext main) eqn:Hext; cbn [negb orb].
  - destruct (isDir env main); [|exact Hext].
    destruct (resolve_suffix (process_cwd env) main (removeScope lib pkgName))
      as (pre & Hpre).
    rewrite (Hpre ".js") by (split; [reflexivity | simpl; lia]).
    apply test_append. reflexivity.
  - destruct (resolve_suffix (process_cwd env) main (removeScope lib pkgName))
      as (pre & Hpre).
    rewrite (Hpre ".js") by (split; [reflexivity | simpl; lia]).
    apply test_append. reflexivity.
Qed.

End OutputPath.

(** ** Absolute paths *)

Section AbsolutePaths.
Import JsString Path.

Lemma startsWith_slash_nonempty (p : string) :
  startsWith "/" p = true -> String.eqb p "" = false.
Proof. destruct p; [discriminate | reflexivity]. Qed.

Lemma startsWith_slash_append_l (p s : string) :
  startsWith "/" p = true -> startsWith "/" (p +:+ s) = true.
Proof. destruct p as [|c p]; [discriminate|]. rewrite append_cons. exact id. Qed.

(** An absolute last argument is all that [resolve] reads. *)
Lemma resolve_absolute_last (pcwd a b : string) :
  startsWith "/" b = true -> Path.resolve pcwd [a; b] = Path.resolve pcwd [b].
Proof.
  intros Hb. unfold Path.resolve.
  change (List.rev [a; b] ++ [pcwd])%list with [b; a; pcwd].
  change (List.rev [b] ++ [pcwd])%list with [b; pcwd].
  cbn [gather]. rewrite (startsWith_slash_nonempty b Hb), Hb. reflexivity.
Qed.

Lemma gather_absolute (paths : list string) :
  (exists p, In p paths /\ startsWith "/" p = true) ->
  forall acc, snd (gather paths acc) = true.
Proof.
  induction paths as [|q paths IH]; intros (p & Hin & Hp) acc; [destruct Hin|].
  cbn [gather]. destruct (String.eqb_spec q "") as [->|Hq].
  - apply IH. destruct Hin as [<-|Hin]; [discriminate Hp|]. eauto.
  - destruct (startsWith "/" q) eqn:Hsq; [reflexivity|].
    apply IH. destruct Hin as [<-|Hin]; [congruence|]. eauto.
Qed.

(** With an absolute working directory of the process, [resolve] returns
    an absolute path. *)
Lemma resolve_absolute (pcwd : string) (args : list string) :
  startsWith "/" pcwd = true -> startsWith "/" (Path.resolve pcwd args) = true.
Proof.
  intros Hp. unfold Path.resolve.
  assert (Hin : exists p, In p (List.rev args ++ [pcwd])%list
                          /\ startsWith "/" p = true).
  { exists pcwd. split; [|exact Hp]. apply in_or_app. right. left. reflexivity. }
  pose proof (gather_absolute _ Hin "") as Habs.
  destruct (gather (List.rev args ++ [pcwd])%list "") as [resolvedPath abs].
  cbn [snd] in Habs. subst abs. reflexivity.
Qed.

Lemma strip_tagged_ext_root (t : string) :
  startsWith "/" (Regex.strip_suffix Patterns.tagged_ext (String "/" t)) = true.
Proof. reflexivity. Qed.

End AbsolutePaths.

(** ** What [getMain] reads of a template, of a format and of an entry *)

Section PlannerInputs.
Variable env : Env.
Import JsString.

Lemma mainNoExtension_absolute (options : Options) (entry : string) :
  startsWith "/" (process_cwd env) = true ->
  startsWith "/" (mainNoExtension env options entry) = true.
Proof.
  intros Hp. unfold mainNoExtension.
  set (name := if Regex.test Patterns.index_entry entry then output options else entry).
  pose proof (resolve_absolute (process_cwd env)
                [Path.dirname (output options); Path.basename name] Hp) as Habs.
  destruct (Path.resolve (process_cwd env)
              [Path.dirname (output options); Path.basename name]) as [|c t];
    [discriminate Habs|].
  cbn [startsWith] in Habs. apply andb_true_iff in Habs as [Hc _].
  apply Ascii.eqb_eq in Hc. subst c. apply strip_tagged_ext_root.
Qed.

(** X13.  With an absolute working directory of the process, the name
    that [replaceName] derives for an output reads one thing of the
    template: the text from the first dot of its base name.  The
    directory of the template and the name before the dot are not
    used. *)
Theorem template_gives_suffix_only (options : Options) (entry template : string) :
  startsWith "/" (process_cwd env) = true ->
  replaceName env template (mainNoExtension env options entry)
  = Path.resolve (process_cwd env)
      [mainNoExtension env options entry
         +:+ dropWhile not_dot (Path.basename template)].
Proof.
  intros Hp. unfold replaceName. apply resolve_absolute_last.
  apply startsWith_slash_append_l, mainNoExtension_absolute, Hp.
Qed.

Lemma getMain_fallback (options : Options) (entry format : string) :
  opt_pkg_main options = true ->
  ~ In format ["cjs"; "es"; "umd"; "modern"] ->
  getMain env options entry format
  = replaceName env (cjs_template (pkg options)) (mainNoExtension env options entry).
Proof.
  intros Hpm Hf. cbn [In] in Hf. unfold getMain. rewrite Hpm. cbn [negb].
  unfold mainsByFormat.
  rewrite (lookup_insert_ne _ "umd" format) by tauto.
  rewrite (lookup_insert_ne _ "cjs" format) by tauto.
  rewrite (lookup_insert_ne _ "modern" format) by tauto.
  rewrite (lookup_insert_ne _ "es" format) by tauto.
  rewrite lookup_empty.
  rewrite lookup_total_alt, (lookup_insert_ne _ "umd" "cjs") by done.
  rewrite lookup_insert_eq. reflexivity.
Qed.

(** X14.  A format outside [cjs], [es], [umd] and [modern] that is not
    the name of a member of [Object.prototype] is planned at the path
    of [cjs]. *)
Theorem getMain_unknown_format (options : Options) (entry format : string) :
  ~ In format ["cjs"; "es"; "umd"; "modern"] ->
  ~ In format object_prototype_members ->
  getMain env options entry format = getMain env options entry "cjs".
Proof.
  intros Hf _. destruct (opt_pkg_main options) eqn:Hpm.
  - rewrite (getMain_fallback options entry format Hpm Hf).
    destruct (getMain_by_format env options entry Hpm) as (-> & _). reflexivity.
  - rewrite !getMain_pkg_main_off by exact Hpm. reflexivity.
Qed.

Lemma mainNoExtension_same_file_name (options : Options) (e1 e2 : string) :
  (Regex.test Patterns.index_entry e1 = true
   /\ Regex.test Patterns.index_entry e2 = true)
  \/ (Regex.test Patterns.index_entry e1 = false
      /\ Regex.test Patterns.index_entry e2 = false
      /\ Path.basename e1 = Path.basename e2) ->
  mainNoExtension env options e1 = mainNoExtension env options e2.
Proof.
  intros H. unfold mainNoExtension.
  destruct H as [[-> ->] | (-> & -> & ->)]; reflexivity.
Qed.

(** X15.  [getMain] reads of the entry whether it is an index file, and
    its base name when it is not: two entries named [index] (with a
    script extension), or two entries with the same file name in
    different directories, are planned at the same path for every
    format. *)
Theorem getMain_same_file_name (options : Options) (e1 e2 format : string) :
  (Regex.test Patterns.index_entry e1 = true
   /\ Regex.test Patterns.index_entry e2 = true)
  \/ (Regex.test Patterns.index_entry e1 = false
      /\ Regex.test Patterns.index_entry e2 = false
      /\ Path.basename e1 = Path.basename e2) ->
  getMain env options e1 format = getMain env options e2 format.
Proof.
  intros H. unfold getMain, mainsByFormat.
  rewrite (mainNoExtension_same_file_name options e1 e2 H). reflexivity.
Qed.

End PlannerInputs.

Lemma template_gives_suffix_only_witness :
  replaceName Sample.env "lib/anything.module.js"
    (mainNoExtension Sample.env Sample.options "/p/src/index.js")
  = "/p/dist/pkg.module.js".
Proof.
  rewrite (template_gives_suffix_only Sample.env Sample.options
             "/p/src/index.js" "lib/anything.module.js" eq_refl).
  reflexivity.
Defined.

Lemma getMain_unknown_format_witness :
  getMain Sample.env Sample.options "/p/src/index.js" "iife" = "/p/dist/pkg.js".
Proof.
  rewrite (getMain_unknown_format Sample.env Sample.options "/p/src/index.js" "iife").
  - reflexivity.
  - simpl. intros [H|[H|[H|[H|[]]]]]; discriminate H.
  - unfold object_prototype_members. cbn [In].
    intros H. repeat (destruct H as [H|H]; [discriminate H|]). exact H.
Defined.

Lemma getMain_same_file_name_witness :
  getMain Sample.env Sample.options "/p/src/index.js" "es"
  = getMain Sample.env Sample.options "/p/lib/index.ts" "es".
Proof.
  apply (getMain_same_file_name Sample.env Sample.options
           "/p/src/index.js" "/p/lib/index.ts" "es").
  left. split; reflexivity.
Defined.

(** ** The order of the entries and of the writes *)

Section Orders.
Variable env : Env.
Variable lib : Lib.

Lemma uniq_sublist (l : list string) : forall seen, sublist (uniq seen l) l.
Proof.
  induction l as [|x l IH]; intros seen; cbn [uniq]; [constructor|].
  destruct (existsb (String.eqb x) seen).
  - apply sublist_cons, IH.
  - apply sublist_skip, IH.
Qed.

Lemma uniq_NoDup_id (l : list string) :
  NoDup l -> forall seen, (forall x, In x l -> ~ In x seen) -> uniq seen l = l.
Proof.
  induction 1 as [|x l Hx Hl IH]; intros seen Hseen; [reflexivity|]. cbn [uniq].
  destruct (existsb (String.eqb x) seen) eqn:Hex.
  - apply existsb_exists in Hex as (y & Hy & E). apply String.eqb_eq in E. subst y.
    exfalso. apply (Hseen x); [left; reflexivity | exact Hy].
  - f_equal. apply IH. intros y Hy [<-|Hin].
    + apply Hx, list_elem_of_In, Hy.
    + apply (Hseen y); [right; exact Hy | exact Hin].
Qed.

Lemma uniq_snoc (l : list string) (x : string) :
  forall seen,
    uniq seen (l ++ [x])
    = if existsb (String.eqb x) seen || existsb (String.eqb x) l
      then uniq seen l
      else (uniq seen l ++ [x])%list.
Proof.
  induction l as [|a l IH]; intros seen; cbn [app uniq existsb].
  - rewrite orb_false_r. destruct (existsb (String.eqb x) seen); reflexivity.
  - destruct (existsb (String.eqb a) seen) eqn:Ha.
    + rewrite IH. destruct (String.eqb_spec x a) as [->|_].
      * rewrite Ha. reflexivity.
      * reflexivity.
    + rewrite IH. cbn [existsb].
      destruct (String.eqb x a), (existsb (String.eqb x) seen),
        (existsb (String.eqb x) l); reflexivity.
Qed.

(** X16.  [getEntries] goes through the input from left to right and
    keeps the first copy of each resolved file: the resolved file of
    one more input is put at the end when no input before it resolves
    to the same file, and is left out otherwise.  So its result is the
    list of the resolved files with the later repeats left out, and
    that list itself when no resolved file occurs twice. *)
Theorem getEntries_keeps_order (input : list string) (cwd : string) :
  getEntries env [] cwd = []
  /\ (forall file,
        getEntries env (input ++ [file]) cwd
        = if existsb (String.eqb (entry_of env cwd file))
               (map (entry_of env cwd) input)
          then getEntries env input cwd
          else (getEntries env input cwd ++ [entry_of env cwd file])%list)
  /\ sublist (getEntries env input cwd) (map (entry_of env cwd) input)
  /\ (NoDup (map (entry_of env cwd) input) ->
      getEntries env input cwd = map (entry_of env cwd) input).
Proof.
  split; [reflexivity|]. split; [|split].
  - intros file. unfold getEntries. cbn [app].
    rewrite map_app. cbn [map]. rewrite uniq_snoc. reflexivity.
  - apply uniq_sublist.
  - intros Hnd. apply uniq_NoDup_id; [exact Hnd | intros x _ []].
Qed.




End Orders.


(** ** The directory of an output *)

Section Dirname.
Import JsString Path.

Lemma list_of_append (a b : string) :
  list_ascii_of_string (a +:+ b)
  = (list_ascii_of_string a ++ list_ascii_of_string b)%list.
Proof.
  induction a as [|c a IH]; [reflexivity|].
  rewrite append_cons. cbn [list_ascii_of_string app]. rewrite IH. reflexivity.
Qed.

Lemma string_of_app (l1 l2 : list ascii) :
  string_of_list_ascii (l1 ++ l2)
  = string_of_list_ascii l1 +:+ string_of_list_ascii l2.
Proof.
  induction l1 as [|c l1 IH]; [reflexivity|].
  cbn [app string_of_list_ascii]. rewrite IH. reflexivity.
Qed.

Lemma rev_append (a b : string) :
  JsString.rev (a +:+ b) = JsString.rev b +:+ JsString.rev a.
Proof.
  unfold JsString.rev. rewrite list_of_append, rev_app_distr. apply string_of_app.
Qed.

Lemma all_string_of_list (f : ascii -> bool) (l : list ascii) :
  all f (string_of_list_ascii l) = forallb f l.
Proof. induction l as [|c l IH]; [reflexivity|]. cbn. rewrite IH. reflexivity. Qed.

Lemma all_list_of_string (f : ascii -> bool) (s : string) :
  forallb f (list_ascii_of_string s) = all f s.
Proof. induction s as [|c s IH]; [reflexivity|]. cbn. rewrite IH. reflexivity. Qed.

Lemma forallb_rev (f : ascii -> bool) (l : list ascii) :
  forallb f (List.rev l) = forallb f l.
Proof.
  induction l as [|c l IH]; [reflexivity|]. cbn [List.rev].
  rewrite forallb_app, IH. cbn. rewrite andb_true_r. apply andb_comm.
Qed.

Lemma all_rev (f : ascii -> bool) (s : string) :
  all f (JsString.rev s) = all f s.
Proof.
  unfold JsString.rev. rewrite all_string_of_list, forallb_rev.
  apply all_list_of_string.
Qed.

Lemma rev_nonempty (s : string) : s <> "" -> JsString.rev s <> "".
Proof.
  destruct s as [|c s]; [congruence|]. intros _. unfold JsString.rev.
  cbn [list_ascii_of_string List.rev]. rewrite string_of_app.
  destruct (string_of_list_ascii (List.rev (list_ascii_of_string s))); discriminate.
Qed.

Lemma dropWhile_all (f : ascii -> bool) (a b : string) :
  all f a = true -> dropWhile f (a +:+ b) = dropWhile f b.
Proof.
  induction a as [|c a IH]; [reflexivity|]. cbn [all].
  intros [Hc Ha]%andb_true_iff. rewrite append_cons. cbn [dropWhile].
  rewrite Hc. exact (IH Ha).
Qed.

Lemma dropWhile_stops (f : ascii -> bool) (c : ascii) (s : string) :
  f c = false -> dropWhile f (String c s) = String c s.
Proof. intros H. cbn [dropWhile]. rewrite H. reflexivity. Qed.

(** Text without a slash appended to a path does not change the
    directory of the path. *)
Lemma dirname_plain_suffix (pre : string) :
  exists d, forall s, all not_slash s = true -> s <> "" ->
    dirname (pre +:+ s) = d.
Proof.
  destruct pre as [|c p].
  - exists ".". intros s Hs Hne. rewrite append_nil_l.
    destruct s as [|x tl]; [congruence|]. cbn [all] in Hs.
    apply andb_true_iff in Hs as [Hx Htl].
    unfold dirname.
    assert (Hr : all not_slash (JsString.rev tl) = true) by (rewrite all_rev; exact Htl).
    assert (H1 : dropWhile is_slash (JsString.rev tl) = JsString.rev tl).
    { destruct (JsString.rev tl) as [|y r]; [reflexivity|].
      cbn [all] in Hr. apply andb_true_iff in Hr as [Hy _].
      apply dropWhile_stops. unfold not_slash in Hy. apply negb_true_iff, Hy. }
    rewrite H1.
    rewrite <- (append_nil_r (JsString.rev tl)), (dropWhile_all _ _ "" Hr).
    cbn [dropWhile]. unfold not_slash in Hx. apply negb_true_iff in Hx.
    rewrite Hx. reflexivity.
  - exists (let hasRoot := is_slash c in
            match dropWhile not_slash (JsString.rev p) with
            | "" => if hasRoot then "/" else "."
            | String _ r3 =>
                if hasRoot && String.eqb r3 "" then "//"
                else String c (JsString.rev r3)
            end).
    intros s Hs Hne. rewrite append_cons. unfold dirname.
    rewrite rev_append.
    assert (Hr : all not_slash (JsString.rev s) = true) by (rewrite all_rev; exact Hs).
    pose proof (rev_nonempty s Hne) as Hrne.
    assert (H1 : dropWhile is_slash (JsString.rev s +:+ JsString.rev p)
                 = JsString.rev s +:+ JsString.rev p).
    { destruct (JsString.rev s) as [|y r]; [congruence|].
      cbn [all] in Hr. apply andb_true_iff in Hr as [Hy _].
      rewrite append_cons. apply dropWhile_stops.
      unfold not_slash in Hy. apply negb_true_iff, Hy. }
    rewrite H1, (dropWhile_all _ _ _ Hr). reflexivity.
Qed.

End Dirname.

Section OutputDirectory.
Variable env : Env.

Lemma absMain_default_names (options : Options) (entry : string) :
  opt_pkg_main options = true ->
  cjs_template (pkg options) = "x.js" ->
  es_template (pkg options) = "x.esm.js" ->
  umd_template (pkg options) = "x.umd.js" ->
  modern_template (pkg options) = "x.modern.js" ->
  exists pre,
    absMain env options entry "cjs" = pre +:+ ".js"
    /\ absMain env options entry "es" = pre +:+ ".esm.js"
    /\ absMain env options entry "umd" = pre +:+ ".umd.js"
    /\ absMain env options entry "modern" = pre +:+ ".modern.js".
Proof.
  intros Hpm Hcjs Hes Humd Hmodern.
  destruct (getMain_by_format env options entry Hpm) as (Gc & Ge & Gu & Gm).
  rewrite Hcjs in Gc. rewrite Hes in Ge. rewrite Humd in Gu. rewrite Hmodern in Gm.
  destruct (default_names env (mainNoExtension env options entry))
    as (pre0 & Pc & Pe & Pu & Pm).
  rewrite Pc in Gc. rewrite Pe in Ge. rewrite Pu in Gu. rewrite Pm in Gm.
  destruct (resolve_suffix (process_cwd env) (cwd options) pre0) as (pre & Hpre).
  exists pre. unfold absMain. rewrite Gc, Ge, Gu, Gm.
  repeat split; apply Hpre; (split; [reflexivity | simpl; lia]).
Qed.

(** X18.  With the default templates, or with [pkg-main] off, the output
    options that [getConfigOutput] builds for the formats [cjs], [es],
    [umd] and [modern] of a build name the same directory and the same
    file-name pattern [[name].js]: they differ in the field [format]
    only, and those of [es] and [modern], whose field [format] is [es]
    for both, are equal. *)
Theorem getConfigOutput_same_directory
    (options : Options) (f1 f2 : string) (w1 w2 : bool) :
  entries options <> [] ->
  (opt_pkg_main options = true ->
   cjs_template (pkg options) = "x.js"
   /\ es_template (pkg options) = "x.esm.js"
   /\ umd_template (pkg options) = "x.umd.js"
   /\ modern_template (pkg options) = "x.modern.js") ->
  In f1 ["cjs"; "es"; "umd"; "modern"] ->
  In f2 ["cjs"; "es"; "umd"; "modern"] ->
  exists o1 o2,
    getConfigOutput env options f1 w1 = Some o1
    /\ getConfigOutput env options f2 w2 = Some o2
    /\ o_dir o1 = o_dir o2
    /\ o_entryFileNames o1 = o_entryFileNames o2
    /\ (format_of f1 = format_of f2 -> o1 = o2).
Proof.
  intros Hentries Hdef H1 H2. unfold getConfigOutput.
  destruct (entries options) as [|entry rest]; [congruence|].
  assert (Hdir : Path.dirname (absMain env options entry f1)
                 = Path.dirname (absMain env options entry f2)).
  { destruct (opt_pkg_main options) eqn:Hpm.
    - destruct (Hdef eq_refl) as (Hc & He & Hu & Hm).
      destruct (absMain_default_names options entry Hpm Hc He Hu Hm)
        as (pre & Ac & Ae & Au & Am).
      destruct (dirname_plain_suffix pre) as (d & Hd).
      assert (Hall : forall f, In f ["cjs"; "es"; "umd"; "modern"] ->
                Path.dirname (absMain env options entry f) = d).
      { intros f Hf. cbn [In] in Hf.
        destruct Hf as [<-|[<-|[<-|[<-|[]]]]];
          rewrite ?Ac, ?Ae, ?Au, ?Am; apply Hd; (reflexivity || discriminate). }
      rewrite (Hall f1 H1), (Hall f2 H2). reflexivity.
    - unfold absMain. rewrite !getMain_pkg_main_off by exact Hpm. reflexivity. }
  eexists. eexists. split; [reflexivity|]. split; [reflexivity|].
  unfold outputOptions_at. cbn [o_dir o_entryFileNames].
  split; [exact Hdir|]. split; [reflexivity|].
  intros Hf. rewrite Hdir, Hf. reflexivity.
Qed.

End OutputDirectory.

Lemma getConfigOutput_same_directory_witness :
  exists o1 o2,
    getConfigOutput Sample.env
      (Sample.options_with true (Sample.manifest_with_module None)) "es" true
    = Some o1
    /\ getConfigOutput Sample.env
         (Sample.options_with true (Sample.manifest_with_module None)) "modern" false
       = Some o2
    /\ o_dir o1 = o_dir o2
    /\ o_entryFileNames o1 = o_entryFileNames o2
    /\ (format_of "es" = format_of "modern" -> o1 = o2).
Proof.
  apply (getConfigOutput_same_directory Sample.env
           (Sample.options_with true (Sample.manifest_with_module None))
           "es" "modern" true false).
  - discriminate.
  - intros _. repeat split; reflexivity.
  - simpl. auto.
  - simpl. auto.
Defined.

(** ** Resolving a resolved path *)

Section ResolveTwice.
Import JsString Path.

Lemma norm_step_keeps_ordinary (stack : list string) (seg : string) :
  Forall (fun x => ordinary x = true) stack ->
  all not_slash seg = true ->
  Forall (fun x => ordinary x = true) (norm_step false stack seg).
Proof.
  intros Hst Hseg. unfold norm_step.
  destruct (String.eqb seg "") eqn:E1; [exact Hst|].
  destruct (String.eqb seg ".") eqn:E2; [exact Hst|]. cbn [orb].
  destruct (String.eqb seg "..") eqn:E3.
  - destruct stack as [|top rest]; [constructor|].
    inversion Hst; subst. destruct (String.eqb top ".."); assumption.
  - constructor; [|exact Hst]. unfold ordinary. rewrite E1, E2, E3, Hseg. reflexivity.
Qed.

Lemma fold_norm_ordinary (segs : list string) :
  Forall (fun x => all not_slash x = true) segs ->
  forall stack,
    Forall (fun x => ordinary x = true) stack ->
    Forall (fun x => ordinary x = true) (fold_left (norm_step false) segs stack).
Proof.
  induction 1 as [|seg segs Hseg _ IH]; intros stack Hst; [exact Hst|].
  cbn [fold_left]. apply IH, norm_step_keeps_ordinary; assumption.
Qed.

Lemma fold_norm_pushes (segs : list string) :
  Forall (fun x => ordinary x = true) segs ->
  forall stack, fold_left (norm_step false) segs stack = (List.rev segs ++ stack)%list.
Proof.
  induction 1 as [|seg segs Hseg _ IH]; intros stack; [reflexivity|].
  cbn [fold_left List.rev]. rewrite IH, <- app_assoc. cbn [app]. f_equal.
  unfold ordinary in Hseg.
  apply andb_true_iff in Hseg as [Hseg _].
  apply andb_true_iff in Hseg as [Hseg E3].
  apply andb_true_iff in Hseg as [E1 E2].
  apply negb_true_iff in E1, E2, E3.
  unfold norm_step. rewrite E1, E2, E3. reflexivity.
Qed.

Lemma split_of_join (l : list string) :
  l <> [] -> Forall (fun x => all not_slash x = true) l ->
  split "/" (join "/" l) = l.
Proof.
  induction l as [|x l IH]; [congruence|]. intros _ Hall.
  inversion Hall as [|? ? Hx Hl]; subst. destruct l as [|y r].
  - cbn [join]. apply split_plain, Hx.
  - change (join "/" (x :: y :: r)) with (x +:+ "/" +:+ join "/" (y :: r)).
    rewrite split_append_slash, (split_plain x Hx), IH by (discriminate || exact Hl).
    reflexivity.
Qed.

Lemma ordinary_plain (l : list string) :
  Forall (fun x => ordinary x = true) l -> Forall (fun x => all not_slash x = true) l.
Proof.
  intros Hl. eapply Forall_impl; [exact Hl|]. intros x H. unfold ordinary in H.
  apply andb_true_iff in H as [_ H]. exact H.
Qed.

(** The absolute path of a list of kept segments is a fixed point of
    [resolve]. *)
Lemma resolve_of_segments (pcwd a : string) (segs : list string) :
  Forall (fun x => ordinary x = true) segs ->
  Path.resolve pcwd [a; "/" +:+ join "/" segs] = "/" +:+ join "/" segs.
Proof.
  intros Hord. rewrite resolve_absolute_last by reflexivity.
  unfold Path.resolve. cbn [List.rev app gather String.eqb startsWith Ascii.eqb].
  change (Ascii.eqb "/" "/" && true) with true. cbn iota. cbn [negb].
  f_equal. unfold normalizeString, segments.
  change (("/" +:+ join "/" segs) +:+ "/" +:+ "")
    with ("" +:+ "/" +:+ (join "/" segs +:+ "/" +:+ "")).
  rewrite !split_append_slash. cbn [split].
  rewrite !fold_left_app. cbn [fold_left].
  change (norm_step false [] "") with (@nil string).
  destruct segs as [|x r].
  - reflexivity.
  - assert (Hne : x :: r <> []) by discriminate.
    set (segs := x :: r) in *.
    rewrite (split_of_join segs Hne (ordinary_plain segs Hord)).
    rewrite (fold_norm_pushes segs Hord), app_nil_r.
    change (norm_step (negb true) (List.rev segs) "") with (List.rev segs).
    rewrite rev_involutive. reflexivity.
Qed.


End ResolveTwice.

(** ** Paths that are already resolved *)

Section ResolvedPaths.
Variable env : Env.
Variable lib : Lib.
Import JsString.


Lemma getOutput_is_resolved (cwd : string) (output pkgMain pkgName : option string) :
  exists args,
    getOutput env lib cwd output pkgMain pkgName = Path.resolve (process_cwd env) args.
Proof. unfold getOutput. destruct (_ || _); eauto. Qed.


(** X20.  With an absolute working directory of the process, every entry
    that [getEntries] returns is an absolute path, and no entry is given
    a derived global name. *)
Theorem getEntries_absolute (input : list string) (cwd : string)
    (external : list External) (entry : string) :
  startsWith "/" (process_cwd env) = true ->
  In entry (getEntries env input cwd) ->
  startsWith "/" entry = true /\ auto_globals external !! entry = None.
Proof.
  intros Hp Hin.
  assert (Habs : startsWith "/" entry = true).
  { unfold getEntries in Hin. apply uniq_In in Hin as [Hin _].
    apply in_map_iff in Hin as (file & <- & _).
    destruct (isDir env _); apply resolve_absolute, Hp. }
  split; [exact Habs|].
  destruct entry as [|c t]; [discriminate Habs|].
  cbn [startsWith] in Habs. apply andb_true_iff in Habs as [Hc _].
  apply Ascii.eqb_eq in Hc. subst c. apply auto_globals_absolute.
Qed.

End ResolvedPaths.


Lemma getEntries_absolute_witness :
  JsString.startsWith "/" "/p/src/index.js" = true
  /\ auto_globals (createConfig_externals Sample.lib Sample.options "/p/other.js")
       !! "/p/src/index.js" = None.
Proof.
  apply (getEntries_absolute Sample.env ["src/index.js"] "/p"
           (createConfig_externals Sample.lib Sample.options "/p/other.js")
           "/p/src/index.js").
  - reflexivity.
  - vm_compute. auto.
Defined.

(** ** The input map of [getConfigInput] *)




(** ** What a pattern can consume *)

Section RegexAlphabet.
Import Regex JsString.

Lemma all_append (f : ascii -> bool) (a b : string) :
  all f (a +:+ b) = all f a && all f b.
Proof.
  induction a as [|c a IH]; [reflexivity|].
  rewrite append_cons. cbn [all]. rewrite IH. apply andb_assoc.
Qed.

Lemma mem_forallb (P : ascii -> bool) (l : list ascii) (x : ascii) :
  forallb P l = true -> mem x l = true -> P x = true.
Proof.
  intros Hl Hx. unfold mem in Hx. apply existsb_exists in Hx as (y & Hy & E).
  apply Ascii.eqb_eq in E. subst y. rewrite forallb_forall in Hl. apply Hl, Hy.
Qed.

(** A match of a pattern whose characters all satisfy [P] consumes a
    prefix made of such characters, and the continuation accepts what is
    left. *)
Lemma rmatch_within (P : ascii -> bool) (r : regex) :
  within P r = true ->
  forall s k, rmatch r s k = true ->
    exists p s', s = p +:+ s' /\ all P p = true /\ k s' = true.
Proof.
  induction r as [|c|l|l|a IHa b IHb|a IHa b IHb|a IHa|a IHa|];
    cbn [within]; intros Hw s k H.
  - exists "", s. auto.
  - cbn [rmatch] in H. destruct s as [|x t]; [discriminate|].
    apply andb_true_iff in H as [Hx Hk]. apply Ascii.eqb_eq in Hx. subst x.
    exists (String c ""), t. cbn [all]. rewrite Hw. auto.
  - cbn [rmatch] in H. destruct s as [|x t]; [discriminate|].
    apply andb_true_iff in H as [Hx Hk].
    exists (String x ""), t. cbn [all]. rewrite (mem_forallb P l x Hw Hx). auto.
  - discriminate.
  - apply andb_true_iff in Hw as [Hwa Hwb]. cbn [rmatch] in H.
    destruct (IHa Hwa _ _ H) as (p1 & s1 & -> & Hp1 & H1).
    destruct (IHb Hwb _ _ H1) as (p2 & s2 & -> & Hp2 & H2).
    exists (p1 +:+ p2), s2. rewrite append_assoc, all_append, Hp1, Hp2. auto.
  - apply andb_true_iff in Hw as [Hwa Hwb]. cbn [rmatch] in H.
    apply orb_true_iff in H as [H|H]; [exact (IHa Hwa _ _ H) | exact (IHb Hwb _ _ H)].
  - cbn [rmatch] in H. apply orb_true_iff in H as [H|H]; [exact (IHa Hw _ _ H)|].
    exists "", s. auto.
  - cbn [rmatch] in H. revert H. generalize (String.length s) at 1. intros n.
    revert s. induction n as [|n IHn]; intros s H.
    + exists "", s. auto.
    + apply orb_true_iff in H as [H|H]; [|exists "", s; auto].
      destruct (IHa Hw _ _ H) as (p1 & s1 & -> & Hp1 & H1).
      apply andb_true_iff in H1 as [_ H1].
      destruct (IHn _ H1) as (p2 & s2 & -> & Hp2 & H2).
      exists (p1 +:+ p2), s2. rewrite append_assoc, all_append, Hp1, Hp2. auto.
  - cbn [rmatch] in H. destruct s; [|discriminate]. exists "", "". auto.
Qed.

Lemma tagged_ext_no_slash (s : string) :
  test_anchored Patterns.tagged_ext s = true -> all not_slash s = true.
Proof.
  unfold test_anchored, Patterns.tagged_ext. cbn [rmatch]. intros H.
  destruct (rmatch_within not_slash Patterns.format_tag eq_refl _ _ H)
    as (p1 & s1 & -> & Hp1 & H1).
  destruct (rmatch_within not_slash Patterns.script_ext eq_refl _ _ H1)
    as (p2 & s2 & -> & Hp2 & H2).
  destruct s2; [|discriminate H2].
  rewrite !all_append, Hp1, Hp2. reflexivity.
Qed.

Lemma strip_tagged_ext_through_slash (x y : string) :
  strip_suffix Patterns.tagged_ext (x +:+ "/" +:+ y)
  = x +:+ "/" +:+ strip_suffix Patterns.tagged_ext y.
Proof.
  assert (Hno : forall s, all not_slash s = false ->
            strip_suffix Patterns.tagged_ext s
            = match s with
              | "" => ""
              | String c t => String c (strip_suffix Patterns.tagged_ext t)
              end).
  { intros s Hs. destruct s as [|c t]; [discriminate Hs|].
    cbn [strip_suffix].
    destruct (test_anchored Patterns.tagged_ext (String c t)) eqn:E; [|reflexivity].
    apply tagged_ext_no_slash in E. congruence. }
  induction x as [|c x IH].
  - rewrite !append_nil_l. apply (Hno ("/" +:+ y)). reflexivity.
  - rewrite (append_cons c x ("/" +:+ y)).
    rewrite (append_cons c x ("/" +:+ strip_suffix Patterns.tagged_ext y)), <- IH.
    apply (Hno (String c (x +:+ "/" +:+ y))).
    cbn [all]. rewrite all_append. cbn [all].
    change (not_slash "/") with false. rewrite andb_false_r. apply andb_false_r.
Qed.



End RegexAlphabet.

(** ** Absolute paths as lists of segments *)

Section SegmentPaths.
Import JsString Path.

Lemma rev_involutive_string (s : string) : JsString.rev (JsString.rev s) = s.
Proof.
  unfold JsString.rev.
  rewrite list_ascii_of_string_of_list_ascii, rev_involutive.
  apply string_of_list_ascii_of_string.
Qed.

Lemma join_app (l1 l2 : list string) :
  l1 <> [] -> l2 <> [] ->
  join "/" (l1 ++ l2) = join "/" l1 +:+ "/" +:+ join "/" l2.
Proof.
  intros H1 H2. induction l1 as [|x l1 IH]; [congruence|].
  destruct l1 as [|y l1].
  - cbn [app]. destruct l2; [congruence | reflexivity].
  - change ((x :: y :: l1) ++ l2)%list with (x :: (y :: l1) ++ l2)%list.
    change (join "/" (x :: (y :: l1) ++ l2))
      with (x +:+ "/" +:+ join "/" ((y :: l1) ++ l2)).
    rewrite IH by discriminate.
    change (join "/" (x :: y :: l1)) with (x +:+ "/" +:+ join "/" (y :: l1)).
    rewrite !append_assoc. reflexivity.
Qed.

Lemma abs_snoc (init : list string) (x : string) :
  abs_of (init ++ [x]) = dir_prefix init +:+ x.
Proof.
  unfold abs_of, dir_prefix. destruct init as [|y init]; [reflexivity|].
  rewrite join_app by discriminate. cbn [join]. rewrite !append_assoc. reflexivity.
Qed.

Lemma ordinary_facts (seg : string) :
  ordinary seg = true ->
  seg <> "" /\ all not_slash seg = true /\ startsWith "/" seg = false.
Proof.
  unfold ordinary. intros H.
  apply andb_true_iff in H as [H Hs]. apply andb_true_iff in H as [H _].
  apply andb_true_iff in H as [H _]. apply negb_true_iff, String.eqb_neq in H.
  split; [exact H|]. split; [exact Hs|].
  destruct seg as [|c t]; [congruence|]. cbn [all] in Hs.
  apply andb_true_iff in Hs as [Hc _]. unfold not_slash, is_slash in Hc.
  apply negb_true_iff in Hc. cbn [startsWith]. rewrite Ascii.eqb_sym, Hc. reflexivity.
Qed.

Lemma join_ordinary_nonempty (l : list string) :
  l <> [] -> Forall (fun x => ordinary x = true) l -> join "/" l <> "".
Proof.
  destruct l as [|x l]; [congruence|]. intros _ H. inversion H as [|? ? Hx _]; subst.
  destruct (ordinary_facts x Hx) as (Hne & _).
  destruct x as [|c x]; [congruence|]. destruct l; discriminate.
Qed.

Lemma dirname_dir_prefix (init : list string) (s : string) :
  Forall (fun x => ordinary x = true) init ->
  all not_slash s = true -> s <> "" ->
  dirname (dir_prefix init +:+ s) = abs_of init.
Proof.
  intros Hinit Hs Hne.
  assert (Hr : all not_slash (JsString.rev s) = true) by (rewrite all_rev; exact Hs).
  pose proof (rev_nonempty s Hne) as Hrne.
  assert (Hstop : forall tail,
            dropWhile is_slash (JsString.rev s +:+ tail) = JsString.rev s +:+ tail).
  { intros tail. destruct (JsString.rev s) as [|y r]; [congruence|].
    cbn [all] in Hr. apply andb_true_iff in Hr as [Hy _].
    rewrite append_cons. apply dropWhile_stops.
    unfold not_slash in Hy. apply negb_true_iff, Hy. }
  unfold dir_prefix, abs_of. destruct init as [|y init].
  - change ("/" +:+ s) with (String "/" s). unfold dirname.
    rewrite <- (append_nil_r (JsString.rev s)), Hstop, (dropWhile_all _ _ "" Hr).
    reflexivity.
  - set (J := join "/" (y :: init)).
    assert (HJ : J <> "") by (apply join_ordinary_nonempty; [discriminate | exact Hinit]).
    change (("/" +:+ J +:+ "/") +:+ s) with (String "/" ((J +:+ "/") +:+ s)).
    unfold dirname. rewrite !rev_append.
    change (JsString.rev "/") with "/". rewrite Hstop, (dropWhile_all _ _ _ Hr).
    change ("/" +:+ JsString.rev J) with (String "/" (JsString.rev J)).
    cbn [dropWhile]. change (not_slash "/") with false. cbn iota.
    change (is_slash "/") with true. cbn [andb].
    rewrite (proj2 (String.eqb_neq _ _) (rev_nonempty J HJ)).
    rewrite rev_involutive_string. reflexivity.
Qed.

Lemma basename_dir_prefix (init : list string) (s : string) :
  all not_slash s = true -> s <> "" ->
  basename (dir_prefix init +:+ s) = s.
Proof.
  intros Hs Hne.
  assert (Hr : all not_slash (JsString.rev s) = true) by (rewrite all_rev; exact Hs).
  pose proof (rev_nonempty s Hne) as Hrne.
  assert (Hform : exists X, dir_prefix init = X +:+ "/").
  { unfold dir_prefix. destruct init as [|y init]; [exists ""; reflexivity|].
    exists ("/" +:+ join "/" (y :: init)). rewrite append_assoc. reflexivity. }
  destruct Hform as (X & ->). unfold basename.
  rewrite !rev_append. change (JsString.rev "/") with "/".
  assert (Hstop : dropWhile is_slash (JsString.rev s +:+ "/" +:+ JsString.rev X)
                  = JsString.rev s +:+ "/" +:+ JsString.rev X).
  { destruct (JsString.rev s) as [|y r]; [congruence|].
    cbn [all] in Hr. apply andb_true_iff in Hr as [Hy _].
    rewrite append_cons. apply dropWhile_stops.
    unfold not_slash in Hy. apply negb_true_iff, Hy. }
  rewrite Hstop.
  destruct (takeWhile_line not_slash (JsString.rev s) ("/" +:+ JsString.rev X) Hr)
    as [Htake _].
  { right. exists "/"%char, (JsString.rev X). split; reflexivity. }
  rewrite Htake. apply rev_involutive_string.
Qed.

End SegmentPaths.

Section ExactPlan.
Import JsString Path.
Variable env : Env.

Lemma resolve_child (pcwd : string) (init : list string) (b : string) :
  Forall (fun x => ordinary x = true) init ->
  ordinary b = true ->
  Path.resolve pcwd [abs_of init; b] = abs_of (init ++ [b]).
Proof.
  intros Hinit Hb. destruct (ordinary_facts b Hb) as (Hne & Hplain & Hrel).
  unfold Path.resolve.
  change (List.rev [abs_of init; b] ++ [pcwd])%list with [b; abs_of init; pcwd].
  cbn [gather]. rewrite (proj2 (String.eqb_neq _ _) Hne), Hrel.
  change (String.eqb (abs_of init) "") with false.
  change (startsWith "/" (abs_of init)) with true. cbn iota.
  change (negb true) with false. unfold abs_of at 2. f_equal.
  unfold normalizeString, segments.
  change (abs_of init +:+ "/" +:+ b +:+ "/" +:+ "")
    with (("" +:+ "/" +:+ join "/" init) +:+ "/" +:+ (b +:+ "/" +:+ "")).
  rewrite !split_append_slash, (split_plain b Hplain). cbn [split].
  rewrite !fold_left_app. cbn [fold_left].
  change (norm_step false [] "") with (@nil string).
  assert (Hfold : fold_left (norm_step false) (split "/" (join "/" init)) []
                  = List.rev init).
  { destruct init as [|x r]; [reflexivity|].
    rewrite split_of_join by (discriminate || apply ordinary_plain, Hinit).
    rewrite (fold_norm_pushes _ Hinit). apply app_nil_r. }
  rewrite Hfold.
  assert (Hpush : norm_step false (List.rev init) b = b :: List.rev init).
  { assert (Hb1 : Forall (fun x => ordinary x = true) [b]) by (repeat constructor; exact Hb).
    exact (fold_norm_pushes [b] Hb1 (List.rev init)). }
  rewrite Hpush. change (norm_step false (b :: List.rev init) "") with (b :: List.rev init).
  cbn [List.rev]. rewrite rev_involutive. reflexivity.
Qed.

(** With an absolute working directory of the process, what [resolve]
    returns is the absolute path of a list of kept segments. *)
Lemma resolve_form (pcwd : string) (args : list string) :
  startsWith "/" pcwd = true ->
  exists segs, Forall (fun x => ordinary x = true) segs
               /\ Path.resolve pcwd args = abs_of segs.
Proof.
  intros Hp. unfold Path.resolve.
  assert (Hin : exists p, In p (List.rev args ++ [pcwd])%list
                          /\ startsWith "/" p = true).
  { exists pcwd. split; [|exact Hp]. apply in_or_app. right. left. reflexivity. }
  pose proof (gather_absolute _ Hin "") as Habs.
  destruct (gather (List.rev args ++ [pcwd])%list "") as [resolvedPath abs].
  cbn [snd] in Habs. subst abs. cbn [negb].
  exists (List.rev (fold_left (norm_step false) (segments resolvedPath) [])).
  split; [|reflexivity].
  apply Forall_rev, fold_norm_ordinary; [|constructor].
  unfold segments. apply (split_join "/" resolvedPath).
Qed.

Lemma getMain_template (options : Options) (entry format : string) :
  opt_pkg_main options = true ->
  getMain env options entry format
  = replaceName env (template_of (pkg options) format)
      (mainNoExtension env options entry).
Proof.
  intros Hpm. destruct (getMain_by_format env options entry Hpm) as (Gc & Ge & Gu & Gm).
  unfold template_of.
  destruct (String.eqb_spec format "es") as [->|N2]; [exact Ge|].
  destruct (String.eqb_spec format "modern") as [->|N4]; [exact Gm|].
  destruct (String.eqb_spec format "umd") as [->|N3]; [exact Gu|].
  destruct (String.eqb_spec format "cjs") as [->|N1]; [exact Gc|].
  apply (getMain_fallback env options entry format Hpm).
  cbn [In]. intros [H|[H|[H|[H|[]]]]]; congruence.
Qed.

Lemma dir_prefix_ends_in_slash (init : list string) :
  exists X, dir_prefix init = X +:+ "/".
Proof.
  unfold dir_prefix. destruct init as [|y init]; [exists ""; reflexivity|].
  exists ("/" +:+ join "/" (y :: init)). rewrite append_assoc. reflexivity.
Qed.

End ExactPlan.

Section ExactPlanTheorem.
Import JsString Path.
Variable env : Env.

Lemma ordinary_stem_suffix (stem suf : string) :
  all not_slash stem = true -> plain_suffix suf ->
  ordinary (stem +:+ suf) = true
  /\ all not_slash (stem +:+ suf) = true /\ stem +:+ suf <> "".
Proof.
  intros Hstem [Hsuf Hlen].
  assert (Hplain : all not_slash (stem +:+ suf) = true).
  { rewrite all_append, Hstem. exact Hsuf. }
  assert (Hl : 3 <= String.length (stem +:+ suf)) by (rewrite append_length; lia).
  split; [|split; [exact Hplain|]].
  - unfold ordinary. rewrite !eqb_length_neq by (simpl; lia). rewrite Hplain. reflexivity.
  - intros E. rewrite E in Hl. simpl in Hl. lia.
Qed.


Lemma planned_path_parts (init : list string) (file : string) :
  Forall (fun x => ordinary x = true) (init ++ [file])%list ->
  Path.dirname (abs_of (init ++ [file])) = abs_of init
  /\ Path.basename (abs_of (init ++ [file])) = file.
Proof.
  intros Hall. apply Forall_app in Hall as [Hinit Hfile].
  inversion Hfile as [|? ? Hf _]; subst.
  destruct (ordinary_facts file Hf) as (Hne & Hplain & _).
  rewrite abs_snoc. split.
  - apply dirname_dir_prefix; assumption.
  - apply basename_dir_prefix; assumption.
Qed.


End ExactPlanTheorem.


(** ** Witnesses and consequences on the sample runs *)

Lemma createConfig_other_entries_external_witness :
  c_external
    (createConfig Sample.env Sample.lib Sample2.two_entries "/p/src/index.js" "cjs" true)
    "/p/cli/index.ts" = true.
Proof.
  apply (createConfig_other_entries_external Sample.env Sample.lib Sample2.two_entries
           "/p/src/index.js" "cjs" true "/p/cli/index.ts" "/p/cli/index.ts").
  - simpl. auto.
  - discriminate.
  - left. reflexivity.
  - discriminate.
  - simpl. intros [].
Defined.



Section OutputFile.
Import JsString.
Variable env : Env.
Variable lib : Lib.


(** X25.  The requested formats are the pieces of the option text
    between its commas: there is at least one, none holds a comma, and
    joined with commas they give the option text back. *)
Theorem requested_formats_round_trip (format : option string) (formats : string) :
  join "," (requested_formats format formats) = or_else format formats
  /\ requested_formats format formats <> []
  /\ Forall (fun piece => all (fun c => negb (Ascii.eqb c ",")) piece = true)
       (requested_formats format formats).
Proof. unfold requested_formats. apply (split_join "," (or_else format formats)). Qed.

End OutputFile.


(** ** The path that [getOutput] returns *)

Section OutputExact.
Import JsString Path.
Variable env : Env.
Variable lib : Lib.

(** X12.  [getOutput] resolves the requested output (else the [main]
    field of the manifest, else [dist]) against the working directory.
    When that path ends in a dot followed by lower-case letters and is
    not a directory, it is the result.  Otherwise the result is the
    file of that directory named after the package, with [.js] put
    after the name: in a run with an absolute working directory and a
    package name without a slash, its directory is the resolved path
    and its base name is the name followed by [.js].  Either way the
    result ends in a dot followed by lower-case letters. *)
Theorem getOutput_exact (cwd : string) (output pkgMain pkgName : option string) :
  let main :=
    Path.resolve (process_cwd env)
      [cwd; or_else output (or_else pkgMain "dist")] in
  let file := removeScope lib pkgName +:+ ".js" in
  let result := getOutput env lib cwd output pkgMain pkgName in
  Regex.test Patterns.has_ext result = true
  /\ (Regex.test Patterns.has_ext main = true -> isDir env main = false ->
      result = main)
  /\ (Regex.test Patterns.has_ext main = false \/ isDir env main = true ->
      result = Path.resolve (process_cwd env) [main; file]
      /\ (startsWith "/" (process_cwd env) = true ->
          all not_slash (removeScope lib pkgName) = true ->
          Path.dirname result = main /\ Path.basename result = file)).
Proof.
  intros main file result. split; [apply getOutput_ends_in_ext|]. split.
  - intros Hext Hdir. unfold result, getOutput. fold main. rewrite Hext, Hdir.
    reflexivity.
  - intros Hcase.
    assert (Hres : result = Path.resolve (process_cwd env) [main; file]).
    { unfold result, getOutput. fold main.
      destruct Hcase as [-> | ->]; [reflexivity|]. rewrite orb_true_r. reflexivity. }
    split; [exact Hres|]. intros Hp Hname. rewrite Hres.
    destruct (resolve_form (process_cwd env)
                [cwd; or_else output (or_else pkgMain "dist")] Hp)
      as (segs & Hsegs & Hform).
    fold main in Hform. rewrite Hform.
    destruct (ordinary_stem_suffix (removeScope lib pkgName) ".js" Hname)
      as (Hfile & _ & _); [split; [reflexivity | simpl; lia]|].
    fold file in Hfile.
    rewrite (resolve_child (process_cwd env) segs file Hsegs Hfile).
    apply planned_path_parts, Forall_app. split; [exact Hsegs|].
    repeat constructor. exact Hfile.
Qed.

End OutputExact.

(** ** C1: collisions between the outputs of one invocation *)

Section Collisions.
Import JsString Path.
Variable env : Env.
Variable lib : Lib.

(** The plans of one build: the segments of the directory of
    [options.output], then the planned file name. *)
Lemma planned_paths (options : Options) :
  startsWith "/" (process_cwd env) = true ->
  (exists args, output options = Path.resolve (process_cwd env) args) ->
  output options <> "/" ->
  opt_pkg_main options = true ->
  exists init,
    Forall (fun x => ordinary x = true) init
    /\ forall entry format,
         plannable options entry format ->
         absMain env options entry format
         = abs_of (init ++ [planned_file options entry format]).
Proof.
  intros Hp (args & Hout) Hroot Hpm.
  destruct (resolve_form (process_cwd env) args Hp) as (segs & Hord & Hform).
  rewrite Hform in Hout.
  destruct (exists_last (l := segs)) as (init & last & Hsegs).
  { intros ->. apply Hroot. rewrite Hout. reflexivity. }
  subst segs. apply Forall_app in Hord as [Hinit Hlast].
  inversion Hlast as [|? ? Hlast1 _]; subst.
  destruct (ordinary_facts last Hlast1) as (Hlne & Hlplain & _).
  assert (Hdir : Path.dirname (output options) = abs_of init).
  { rewrite Hout, abs_snoc. apply dirname_dir_prefix; assumption. }
  exists init. split; [exact Hinit|].
  intros entry format [Hentry Hfile].
  set (name := if Regex.test Patterns.index_entry entry
               then output options else entry).
  assert (Hb : ordinary (Path.basename name) = true).
  { unfold name. destruct (Regex.test Patterns.index_entry entry).
    - rewrite Hout, abs_snoc, basename_dir_prefix by assumption. exact Hlast1.
    - destruct Hentry as [H|H]; [discriminate H | exact H]. }
  assert (Hm : mainNoExtension env options entry
               = dir_prefix init +:+ planned_stem options entry).
  { unfold mainNoExtension, planned_stem. fold name. rewrite Hdir.
    rewrite (resolve_child _ init _ Hinit Hb), abs_snoc.
    destruct (dir_prefix_ends_in_slash init) as (X & ->).
    rewrite append_assoc, strip_tagged_ext_through_slash, <- append_assoc.
    reflexivity. }
  assert (Hall : Forall (fun x => ordinary x = true)
                   (init ++ [planned_file options entry format])%list).
  { apply Forall_app. split; [exact Hinit | repeat constructor; exact Hfile]. }
  assert (Hget : getMain env options entry format
                 = abs_of (init ++ [planned_file options entry format])).
  { rewrite getMain_template by exact Hpm. unfold replaceName.
    fold (template_suffix (template_of (pkg options) format)).
    rewrite Hm, append_assoc. fold (planned_file options entry format).
    rewrite <- abs_snoc. apply resolve_of_segments, Hall. }
  unfold absMain. rewrite Hget. apply resolve_of_segments, Hall.
Qed.

Lemma resolve_options_output (inputOptions : InputOptions) :
  (exists args,
     output (resolve_options env lib inputOptions)
     = Path.resolve (process_cwd env) args)
  /\ output (resolve_options env lib inputOptions) <> "/"
  /\ opt_pkg_main (resolve_options env lib inputOptions) = in_pkg_main inputOptions.
Proof.
  unfold resolve_options.
  destruct (getConfigFromPkgJson lib _) as [hasPackageJson p].
  destruct (getName lib _ _ _ _) as [finalName pkgName].
  cbn [output opt_pkg_main]. split; [apply getOutput_is_resolved|].
  split; [|reflexivity].
  intros E.
  match type of E with
  | ?x = _ =>
      assert (H : Regex.test Patterns.has_ext x = true)
        by apply getOutput_ends_in_ext
  end.
  rewrite E in H. discriminate H.
Qed.

Lemma append_cancel_r (a b c : string) : a +:+ c = b +:+ c -> a = b.
Proof.
  revert b. induction a as [|x a IH]; intros [|y b] E.
  - reflexivity.
  - exfalso. apply (f_equal String.length) in E.
    rewrite append_nil_l, append_cons in E. cbn [String.length] in E.
    rewrite append_length in E. lia.
  - exfalso. apply (f_equal String.length) in E.
    rewrite append_nil_l, append_cons in E. cbn [String.length] in E.
    rewrite append_length in E. lia.
  - rewrite !append_cons in E. injection E as -> E. f_equal. exact (IH b E).
Qed.

(** C1, as the code has it.  In a run with an absolute working
    directory and the [pkg-main] option on, every output is planned in
    the directory of [options.output], under a file name made of the
    stem of the entry (that of [options.output] for an index entry) and
    the suffix of the template of the format.  Two pairs of an entry
    and a format among [cjs], [es], [umd] and [modern] are planned at
    the same absolute path exactly when that file name is the same for
    both: two formats of one entry collide exactly when their templates
    have the same suffix, and two entries collide under one format
    exactly when they have the same stem. *)
Theorem C1_paths_collide_iff
    (inputOptions : InputOptions) (e1 f1 e2 f2 : string) :
  let options := resolve_options env lib inputOptions in
  startsWith "/" (process_cwd env) = true ->
  in_pkg_main inputOptions = true ->
  In f1 ["cjs"; "es"; "umd"; "modern"] ->
  In f2 ["cjs"; "es"; "umd"; "modern"] ->
  plannable options e1 f1 ->
  plannable options e2 f2 ->
  (absMain env options e1 f1 = absMain env options e2 f2
   <-> planned_file options e1 f1 = planned_file options e2 f2)
  /\ (e1 = e2 ->
      (absMain env options e1 f1 = absMain env options e2 f2
       <-> template_suffix (template_of (pkg options) f1)
           = template_suffix (template_of (pkg options) f2)))
  /\ (f1 = f2 ->
      (absMain env options e1 f1 = absMain env options e2 f2
       <-> planned_stem options e1 = planned_stem options e2)).
Proof.
  intros options Hp Hpm _ _ H1 H2.
  destruct (resolve_options_output inputOptions) as (Hout & Hroot & Hopt).
  fold options in Hout, Hroot, Hopt. rewrite Hpm in Hopt.
  destruct (planned_paths options Hp Hout Hroot Hopt) as (init & _ & Hplan).
  rewrite (Hplan e1 f1 H1), (Hplan e2 f2 H2), !abs_snoc.
  assert (Hiff : dir_prefix init +:+ planned_file options e1 f1
                 = dir_prefix init +:+ planned_file options e2 f2
                 <-> planned_file options e1 f1 = planned_file options e2 f2).
  { split; [apply append_cancel_l | intros ->; reflexivity]. }
  split; [exact Hiff|]. split.
  - intros <-. rewrite Hiff. unfold planned_file.
    split; [apply append_cancel_l | intros ->; reflexivity].
  - intros <-. rewrite Hiff. unfold planned_file.
    split; [apply append_cancel_r | intros ->; reflexivity].
Qed.

End Collisions.

Lemma C1_paths_collide_iff_witness :
  let options := resolve_options Sample.env Sample.lib Sample.inputOptions in
  pkg_module (pkg options) = Some "dist/pkg.module.js"
  /\ absMain Sample.env options "/p/src/index.js" "cjs"
     <> absMain Sample.env options "/p/src/index.js" "es"
  /\ absMain Sample.env options "/p/src/index.js" "umd"
     <> absMain Sample.env options "/p/src/cli.ts" "umd".
Proof.
  intros options. split; [reflexivity|]. split.
  - destruct (C1_paths_collide_iff Sample.env Sample.lib Sample.inputOptions
                "/p/src/index.js" "cjs" "/p/src/index.js" "es")
      as (Hiff & _ & _);
      [ reflexivity | reflexivity | simpl; auto | simpl; auto
      | split; [left; reflexivity | reflexivity]
      | split; [left; reflexivity | reflexivity] | ].
    intros E. apply Hiff in E. discriminate E.
  - destruct (C1_paths_collide_iff Sample.env Sample.lib Sample.inputOptions
                "/p/src/index.js" "umd" "/p/src/cli.ts" "umd")
      as (Hiff & _ & _);
      [ reflexivity | reflexivity | simpl; auto | simpl; auto
      | split; [left; reflexivity | reflexivity]
      | split; [right; reflexivity | reflexivity] | ].
    intros E. apply Hiff in E. discriminate E.
Defined.

(** C1, as stated, fails, in three ways.  With the [pkg-main] option
    off, [getMain] returns [options.output] for every format, and the
    [cjs] and [es] outputs of the sample entry are planned at the same
    absolute path.  With the option on, a manifest whose [cjs:main] and
    [umd:main] have the same suffix gives the [cjs] and [umd] outputs
    of an entry the same path; and two entries named [index] are given
    the same path under one format. *)
Lemma C1_counterexample :
  (let options := Sample.options_with false Sample.manifest in
   ("/p/src/index.js", "cjs") <> ("/p/src/index.js", "es")
   /\ absMain Sample.env options "/p/src/index.js" "cjs" = "/p/dist/pkg.js"
   /\ absMain Sample.env options "/p/src/index.js" "es" = "/p/dist/pkg.js")
  /\ (let options := Sample.options_with true Sample2.manifest_same_suffix in
      ("/p/src/index.js", "cjs") <> ("/p/src/index.js", "umd")
      /\ absMain Sample.env options "/p/src/index.js" "cjs" = "/p/dist/pkg.js"
      /\ absMain Sample.env options "/p/src/index.js" "umd" = "/p/dist/pkg.js")
  /\ (let options := Sample2.two_entries in
      In "/p/src/index.js" (entries options)
      /\ In "/p/cli/index.ts" (entries options)
      /\ ("/p/src/index.js", "cjs") <> ("/p/cli/index.ts", "cjs")
      /\ absMain Sample.env options "/p/src/index.js" "cjs" = "/p/dist/pkg.js"
      /\ absMain Sample.env options "/p/cli/index.ts" "cjs" = "/p/dist/pkg.js").
Proof.
  split; [|split]; cbv zeta.
  - split; [discriminate|]. split; reflexivity.
  - split; [discriminate|]. split; reflexivity.
  - split; [simpl; auto|]. split; [simpl; auto|]. split; [discriminate|].
    split; reflexivity.
Qed.
